(** * SystemResourceMonitor: sampling, history buffers, process cache, log

    A shallow embedding of [system_monitor.py] (class [SystemResourceMonitor])
    and the properties of its sampling-and-history engine.

    Modelling conventions.
    - Python [int] counters are [Z]; Python [float]s (percentages, the values
      scaled by [/ 1024], clock readings) are exact rationals [Q].  Dividing
      by 1024 is exact in binary floating point, and an [int] below 2^53 in
      magnitude converts to a [float] without rounding, so on that range the
      rational model and the program agree digit for digit.
    - [self] is a record threaded through the methods; the operating system
      answers of one call are gathered in a record [OS]; the log file lives
      in an explicit [filesystem].
    - [psutil], [time], [datetime] and [open] are library code: their
      answers are inputs, their documented behaviour is what is modelled.
    - The process list is modelled twice.  [get_running_processes] takes
      processes whose attributes were all granted, which is what the rest
      of the monitor is stated on.  [get_running_processes_checked] takes
      what [psutil.process_iter] yields in general, [None] standing for a
      denied attribute, and may raise; the two agree where both apply
      ([get_running_processes_checked_granted]). *)

From Stdlib Require Import ZArith QArith Qabs String Ascii List Bool Lia.
From Stdlib Require Import DecimalString Permutation Sorted Lqa.
From Stdlib Require Import Qfield.
Import ListNotations.

Local Open Scope string_scope.
Local Open Scope Z_scope.

(** ** Number formatting: [f"{num:.2f}"] *)

(** Decimal digits of a non-negative integer. *)
Definition decimal (n : Z) : string :=
  NilEmpty.string_of_uint (N.to_uint (Z.to_N n)).

(** Nearest integer, ties to the even neighbour: the rounding of the
    correctly rounded float-to-decimal conversion behind [%.2f]. *)
Definition round_half_even (q : Q) : Z :=
  let d := Z.pos (Qden q) in
  let fl := Qnum q / d in
  match 2 * (Qnum q mod d) ?= d with
  | Lt => fl
  | Gt => fl + 1
  | Eq => if Z.even fl then fl else fl + 1
  end.

(** [f"{num:.2f}"]: sign, integer part, a point and exactly two decimals. *)
Definition format_2f (num : Q) : string :=
  let h := round_half_even (Qabs num * 100) in
  (if Qnum num <? 0 then "-" else "")
    ++ decimal (h / 100) ++ "." ++ decimal (h mod 100 / 10) ++ decimal (h mod 10).

(** ** [_convert_bytes] *)

Definition units : list string := ["B"; "KB"; "MB"; "GB"; "TB"].

(** [x < y] on numbers, as a boolean. *)
Definition Qlt_bool (x y : Q) : bool := negb (Qle_bool y x).

(** The [for unit in ...] loop with its early [return]; the empty list is
    the fall-through to the final [return f"{num:.2f} PB"]. *)
Fixpoint convert_loop (us : list string) (num : Q) : string :=
  match us with
  | [] => format_2f num ++ " PB"
  | unit :: us' =>
      if Qlt_bool num 1024
      then format_2f num ++ " " ++ unit
      else convert_loop us' (num / 1024)
  end.

Definition _convert_bytes (num : Q) : string := convert_loop units num.

(** ** Data *)

(** [collections.deque(maxlen=...)]: the bound and the items, oldest first. *)
Record deque (A : Type) : Type := mk_deque { maxlen : nat; items : list A }.
Arguments mk_deque {A} _ _.
Arguments maxlen {A} _.
Arguments items {A} _.

(** [deque.append]: the item goes to the right end; when that overshoots
    [maxlen], one item is dropped from the left end. *)
Definition append {A : Type} (d : deque A) (x : A) : deque A :=
  let l := (items d ++ [x])%list in
  mk_deque (maxlen d) (if (maxlen d <? length l)%nat then tl l else l).

Definition len {A : Type} (d : deque A) : nat := length (items d).

(** [psutil.disk_io_counters()] and [psutil.net_io_counters()], the fields
    the monitor reads. *)
Record disk_io : Type := mk_disk_io { read_bytes : Z; write_bytes : Z }.
Record net_io : Type := mk_net_io { bytes_sent : Z; bytes_recv : Z }.

(** [proc.info] as filled by [psutil.process_iter([...])], for a process
    all of whose attributes were granted: its name is a string and its two
    percentages are numbers.  A process with a denied attribute has [None]
    in its place; it is outside this record and is the subject of
    [info_dict] and [get_running_processes_checked] below. *)
Record proc_info : Type := mk_proc_info {
  info_pid : Z;
  info_name : string;
  info_cpu_percent : Q;
  info_memory_percent : Q;
  info_cmdline : list string
}.

(** The two exceptions the enumeration loop catches. *)
Inductive psutil_error : Type := NoSuchProcess | AccessDenied.

(** One turn of the loop on a process all of whose attributes were
    granted: the body runs to its end ([inr]) or raises one of the two
    exceptions ([inl]).  The [inl] case is there because the source has
    the [except] clause; [psutil.process_iter] itself fills [proc.info]
    before the body runs, so with it the body only reads a dict and does
    not raise. *)
Definition proc_read : Type := (psutil_error + proc_info)%type.

(** The dict built for each process. *)
Record process : Type := mk_process {
  pid : Z;
  name : string;
  cpu : Q;
  memory : Q;
  cmd : string
}.

Record datetime : Type := mk_datetime {
  year : Z; month : Z; day : Z; hour : Z; minute : Z; second : Z
}.

(** The attributes of [self] ([console], a rendering handle, is left out). *)
Record Monitor : Type := mk_Monitor {
  cpu_history : deque Q;
  mem_history : deque Q;
  disk_read_history : deque Q;
  disk_write_history : deque Q;
  network_send_history : deque Q;
  network_recv_history : deque Q;
  last_network_stats : net_io;
  last_disk_io : disk_io;
  log_file : string;
  process_update_interval : Q;
  last_process_update : Q;
  processes : list process
}.

(** [__init__]. *)
Definition __init__ (net0 : net_io) (disk0 : disk_io) : Monitor :=
  {| cpu_history := mk_deque 50 [];
     mem_history := mk_deque 50 [];
     disk_read_history := mk_deque 50 [];
     disk_write_history := mk_deque 50 [];
     network_send_history := mk_deque 50 [];
     network_recv_history := mk_deque 50 [];
     last_network_stats := net0;
     last_disk_io := disk0;
     log_file := "system_performance.log";
     process_update_interval := 2;
     last_process_update := 0;
     processes := [] |}.

(** Attribute assignment [self.x = v], one function per assigned attribute. *)
Definition set_cpu_history (v : deque Q) (self : Monitor) : Monitor :=
  mk_Monitor v (mem_history self) (disk_read_history self)
    (disk_write_history self) (network_send_history self)
    (network_recv_history self) (last_network_stats self) (last_disk_io self)
    (log_file self) (process_update_interval self) (last_process_update self)
    (processes self).

Definition set_mem_history (v : deque Q) (self : Monitor) : Monitor :=
  mk_Monitor (cpu_history self) v (disk_read_history self)
    (disk_write_history self) (network_send_history self)
    (network_recv_history self) (last_network_stats self) (last_disk_io self)
    (log_file self) (process_update_interval self) (last_process_update self)
    (processes self).

Definition set_disk_read_history (v : deque Q) (self : Monitor) : Monitor :=
  mk_Monitor (cpu_history self) (mem_history self) v
    (disk_write_history self) (network_send_history self)
    (network_recv_history self) (last_network_stats self) (last_disk_io self)
    (log_file self) (process_update_interval self) (last_process_update self)
    (processes self).

Definition set_disk_write_history (v : deque Q) (self : Monitor) : Monitor :=
  mk_Monitor (cpu_history self) (mem_history self) (disk_read_history self)
    v (network_send_history self)
    (network_recv_history self) (last_network_stats self) (last_disk_io self)
    (log_file self) (process_update_interval self) (last_process_update self)
    (processes self).

Definition set_network_send_history (v : deque Q) (self : Monitor) : Monitor :=
  mk_Monitor (cpu_history self) (mem_history self) (disk_read_history self)
    (disk_write_history self) v
    (network_recv_history self) (last_network_stats self) (last_disk_io self)
    (log_file self) (process_update_interval self) (last_process_update self)
    (processes self).

Definition set_network_recv_history (v : deque Q) (self : Monitor) : Monitor :=
  mk_Monitor (cpu_history self) (mem_history self) (disk_read_history self)
    (disk_write_history self) (network_send_history self)
    v (last_network_stats self) (last_disk_io self)
    (log_file self) (process_update_interval self) (last_process_update self)
    (processes self).

Definition set_last_network_stats (v : net_io) (self : Monitor) : Monitor :=
  mk_Monitor (cpu_history self) (mem_history self) (disk_read_history self)
    (disk_write_history self) (network_send_history self)
    (network_recv_history self) v (last_disk_io self)
    (log_file self) (process_update_interval self) (last_process_update self)
    (processes self).

Definition set_last_disk_io (v : disk_io) (self : Monitor) : Monitor :=
  mk_Monitor (cpu_history self) (mem_history self) (disk_read_history self)
    (disk_write_history self) (network_send_history self)
    (network_recv_history self) (last_network_stats self) v
    (log_file self) (process_update_interval self) (last_process_update self)
    (processes self).

Definition set_last_process_update (v : Q) (self : Monitor) : Monitor :=
  mk_Monitor (cpu_history self) (mem_history self) (disk_read_history self)
    (disk_write_history self) (network_send_history self)
    (network_recv_history self) (last_network_stats self) (last_disk_io self)
    (log_file self) (process_update_interval self) v
    (processes self).

Definition set_processes (v : list process) (self : Monitor) : Monitor :=
  mk_Monitor (cpu_history self) (mem_history self) (disk_read_history self)
    (disk_write_history self) (network_send_history self)
    (network_recv_history self) (last_network_stats self) (last_disk_io self)
    (log_file self) (process_update_interval self) (last_process_update self)
    v.

(** ** [get_disk_activity] *)

(** What the operating system answers during one call of
    [get_system_stats], in the order the calls are made.  [time.time()] is
    read twice (test, then stamp), so it has two fields. *)
Record OS : Type := mk_OS {
  cpu_percent : Q;
  virtual_memory_percent : Q;
  disk_io_counters : disk_io;
  net_io_counters : net_io;
  time_at_check : Q;
  process_iter : list proc_read;
  time_at_stamp : Q;
  datetime_now : datetime
}.

(** The returned dict [{'read': ..., 'write': ...}]. *)
Record disk_activity : Type := mk_disk_activity { read : string; write : string }.

Definition get_disk_activity (os : OS) (self : Monitor)
  : Monitor * disk_activity :=
  let current_disk_io := disk_io_counters os in
  let read_bytes := read_bytes current_disk_io - read_bytes (last_disk_io self) in
  let write_bytes := write_bytes current_disk_io - write_bytes (last_disk_io self) in
  let self := set_last_disk_io current_disk_io self in
  let self :=
    set_disk_read_history
      (append (disk_read_history self) (inject_Z read_bytes / 1024)%Q) self in
  let self :=
    set_disk_write_history
      (append (disk_write_history self) (inject_Z write_bytes / 1024)%Q) self in
  (self,
   {| read := _convert_bytes (inject_Z read_bytes) ++ "/s";
      write := _convert_bytes (inject_Z write_bytes) ++ "/s" |}).

(** ** [get_running_processes] *)

(** The sort key [lambda x: (x['cpu'], x['memory'])]. *)
Definition key (x : process) : Q * Q := (cpu x, memory x).

(** [a < b] on pairs, as Python compares tuples: the first components that
    differ decide. *)
Definition tuple_lt (a b : Q * Q) : bool :=
  if Qeq_bool (fst a) (fst b) then Qlt_bool (snd a) (snd b)
  else Qlt_bool (fst a) (fst b).

(** [sorted]: a stable sort that only asks [<] of the keys.  An item is
    placed after every item already there that is not greater than it. *)
Fixpoint insert (x : process) (l : list process) : list process :=
  match l with
  | [] => [x]
  | y :: l' => if tuple_lt (key x) (key y) then x :: l else y :: insert x l'
  end.

Definition sort_ascending (l : list process) : list process :=
  fold_left (fun acc x => insert x acc) l [].

(** [reverse=True] keeps the sort stable: the list is reversed, sorted
    ascending, and reversed again. *)
Definition sorted (l : list process) (reverse : bool) : list process :=
  if reverse then rev (sort_ascending (rev l)) else sort_ascending l.

(** The dict appended for a process that could be read. *)
Definition process_of_info (info : proc_info) : process :=
  {| pid := info_pid info;
     name := info_name info;
     cpu := info_cpu_percent info;
     memory := info_memory_percent info;
     cmd := match info_cmdline info with
            | [] => info_name info
            | _ => String.concat " " (firstn 2 (info_cmdline info))
            end |}.

(** The [for proc in psutil.process_iter(...)] loop: [try] appends,
    [except (NoSuchProcess, AccessDenied): continue] skips.  This is the
    loop on enumerations whose attributes were all granted; a denied
    attribute does not raise here, see [collect_checked]. *)
Definition collect (iter : list proc_read) : list process :=
  fold_left
    (fun processes proc =>
       match proc with
       | inr info => (processes ++ [process_of_info info])%list
       | inl _ => processes
       end)
    iter [].

Definition get_running_processes (iter : list proc_read) : list process :=
  firstn 10 (sorted (collect iter) true).

(** ** The enumeration with denied attributes *)

(** [proc.info] as [psutil.process_iter([...])] fills it in general: the
    value of an attribute that was denied (AccessDenied, ZombieProcess) is
    [None]; the pid is always there.  A process that is gone is not
    yielded at all. *)
Record info_dict : Type := mk_info_dict {
  dict_pid : Z;
  dict_name : option string;
  dict_cpu_percent : option Q;
  dict_memory_percent : option Q;
  dict_cmdline : option (list string)
}.

(** The dict the loop body builds from it; [None] values are copied. *)
Record entry : Type := mk_entry {
  entry_pid : Z;
  entry_name : option string;
  entry_cpu : option Q;
  entry_memory : option Q;
  entry_cmd : option string
}.

(** The exception of a comparison that Python does not support. *)
Inductive exn : Type := TypeError.

(** A value, or an exception raised instead. *)
Definition result (A : Type) : Type := (exn + A)%type.

(** [x == y] on a number or [None]. *)
Definition eq_value (x y : option Q) : bool :=
  match x, y with
  | None, None => true
  | Some a, Some b => Qeq_bool a b
  | _, _ => false
  end.

(** [x < y] on a number or [None]: only two numbers can be ordered. *)
Definition lt_value (x y : option Q) : result bool :=
  match x, y with
  | Some a, Some b => inr (Qlt_bool a b)
  | _, _ => inl TypeError
  end.

(** [a < b] on pairs, as Python compares tuples: the first components
    that are not equal are ordered; equal pairs are not less. *)
Definition lt_keys (a b : option Q * option Q) : result bool :=
  if eq_value (fst a) (fst b)
  then if eq_value (snd a) (snd b) then inr false
       else lt_value (snd a) (snd b)
  else lt_value (fst a) (fst b).

Definition key_checked (x : entry) : option Q * option Q :=
  (entry_cpu x, entry_memory x).

(** [insert], with the exception of a comparison passed on. *)
Fixpoint insert_checked (x : entry) (l : list entry) : result (list entry) :=
  match l with
  | [] => inr [x]
  | y :: l' =>
      match lt_keys (key_checked x) (key_checked y) with
      | inl e => inl e
      | inr true => inr (x :: l)
      | inr false =>
          match insert_checked x l' with
          | inl e => inl e
          | inr r => inr (y :: r)
          end
      end
  end.

Definition sort_ascending_checked (l : list entry) : result (list entry) :=
  fold_left
    (fun acc x =>
       match acc with
       | inl e => inl e
       | inr sorted_so_far => insert_checked x sorted_so_far
       end)
    l (inr []).

(** [sorted], raising when a comparison raises. *)
Definition sorted_checked (l : list entry) (reverse : bool)
  : result (list entry) :=
  if reverse
  then match sort_ascending_checked (rev l) with
       | inl e => inl e
       | inr r => inr (rev r)
       end
  else sort_ascending_checked l.

Definition entry_of_info_dict (info : info_dict) : entry :=
  {| entry_pid := dict_pid info;
     entry_name := dict_name info;
     entry_cpu := dict_cpu_percent info;
     entry_memory := dict_memory_percent info;
     entry_cmd := match dict_cmdline info with
                  | Some (token :: tokens) =>
                      Some (String.concat " " (firstn 2 (token :: tokens)))
                  | _ => dict_name info
                  end |}.

(** The loop on what [psutil.process_iter] yields: the body reads the
    dict, nothing raises, every process is appended. *)
Definition collect_checked (iter : list info_dict) : list entry :=
  fold_left
    (fun processes info => (processes ++ [entry_of_info_dict info])%list)
    iter [].

(** [get_running_processes] on what [psutil.process_iter] yields. *)
Definition get_running_processes_checked (iter : list info_dict)
  : result (list entry) :=
  match sorted_checked (collect_checked iter) true with
  | inl e => inl e
  | inr r => inr (firstn 10 r)
  end.

(** A process whose attributes were all granted, as [process_iter]
    yields it, and its entry. *)
Definition granted (info : proc_info) : info_dict :=
  mk_info_dict (info_pid info) (Some (info_name info))
               (Some (info_cpu_percent info))
               (Some (info_memory_percent info))
               (Some (info_cmdline info)).

Definition entry_of_process (p : process) : entry :=
  mk_entry (pid p) (Some (name p)) (Some (cpu p)) (Some (memory p))
           (Some (cmd p)).

(** ** The log file *)

(** Files by name; [None] is a file that does not exist. *)
Definition filesystem : Type := string -> option string.

(** A file object opened for writing: its name and the text written to it
    that has not reached the file yet. *)
Record file : Type := mk_file { file_name : string; pending : string }.

Definition contents (fs : filesystem) (path : string) : string :=
  match fs path with Some c => c | None => "" end.

(** [open(path, "a")]: the file is created empty when it is missing and is
    left as it is otherwise; writes will go to its end. *)
Definition open_append (fs : filesystem) (path : string) : filesystem * file :=
  (fun p => if String.eqb p path then Some (contents fs path) else fs p,
   mk_file path "").

Definition file_write (f : file) (text : string) : file :=
  mk_file (file_name f) (pending f ++ text).

(** Leaving the [with] block closes the file: the pending text is appended. *)
Definition file_close (fs : filesystem) (f : file) : filesystem :=
  fun p =>
    if String.eqb p (file_name f)
    then Some (contents fs (file_name f) ++ pending f)
    else fs p.

Definition newline : string := String (ascii_of_nat 10) EmptyString.

(** [%m], [%d], [%H], [%M], [%S]: two digits, zero padded. *)
Definition pad2 (n : Z) : string :=
  if n <? 10 then "0" ++ decimal n else decimal n.

(** [strftime("%Y-%m-%d %H:%M:%S")]. *)
Definition strftime (t : datetime) : string :=
  decimal (year t) ++ "-" ++ pad2 (month t) ++ "-" ++ pad2 (day t) ++ " "
    ++ pad2 (hour t) ++ ":" ++ pad2 (minute t) ++ ":" ++ pad2 (second t).

(** The dicts [stats['network']] and [stats]. *)
Record network : Type := mk_network { sent : string; received : string }.

Record stats : Type := mk_stats {
  stats_cpu : Q;
  stats_memory : Q;
  stats_disk_activity : disk_activity;
  stats_network : network
}.

Section Logging.

(** [str] of a Python float, as the f-string inserts [stats['cpu']] and
    [stats['memory']] (the shortest decimal that reads back as the same
    float).  Library behaviour, left abstract. *)
Variable float_str : Q -> string.

(** The text of one log record. *)
Definition log_line (timestamp : string) (st : stats) : string :=
  "[" ++ timestamp ++ "] CPU: " ++ float_str (stats_cpu st)
    ++ "%, Memory: " ++ float_str (stats_memory st) ++ "%, "
    ++ "Disk Read: " ++ read (stats_disk_activity st)
    ++ ", Disk Write: " ++ write (stats_disk_activity st) ++ ", "
    ++ "Network Sent: " ++ sent (stats_network st)
    ++ ", Network Received: " ++ received (stats_network st) ++ newline.

(** [log_performance]; [now] is the answer of [datetime.now()]. *)
Definition log_performance (now : datetime) (self : Monitor) (st : stats)
           (fs : filesystem) : filesystem :=
  let timestamp := strftime now in
  let (fs, log) := open_append fs (log_file self) in
  let log := file_write log (log_line timestamp st) in
  file_close fs log.

(** ** [get_system_stats] *)

Definition get_system_stats (os : OS) (self : Monitor) (fs : filesystem)
  : Monitor * filesystem * stats :=
  let cpu_percent := cpu_percent os in
  let self := set_cpu_history (append (cpu_history self) cpu_percent) self in
  let mem_percent := virtual_memory_percent os in
  let self := set_mem_history (append (mem_history self) mem_percent) self in
  let (self, disk_activity) := get_disk_activity os self in
  let current_network_stats := net_io_counters os in
  let sent_diff :=
    bytes_sent current_network_stats - bytes_sent (last_network_stats self) in
  let recv_diff :=
    bytes_recv current_network_stats - bytes_recv (last_network_stats self) in
  let self :=
    set_network_send_history
      (append (network_send_history self) (inject_Z sent_diff / 1024)%Q) self in
  let self :=
    set_network_recv_history
      (append (network_recv_history self) (inject_Z recv_diff / 1024)%Q) self in
  let self := set_last_network_stats current_network_stats self in
  let self :=
    if Qlt_bool (process_update_interval self)
                (time_at_check os - last_process_update self)
    then
      let self := set_processes (get_running_processes (process_iter os)) self in
      set_last_process_update (time_at_stamp os) self
    else self in
  let st :=
    {| stats_cpu := cpu_percent;
       stats_memory := mem_percent;
       stats_disk_activity := disk_activity;
       stats_network :=
         {| sent := _convert_bytes (inject_Z sent_diff) ++ "/s";
            received := _convert_bytes (inject_Z recv_diff) ++ "/s" |} |} in
  let fs := log_performance (datetime_now os) self st fs in
  (self, fs, st).

End Logging.

(** ** Vocabulary of the statements *)

(** A run of [append] calls, in order. *)
Definition pushes {A : Type} (d : deque A) (xs : list A) : deque A :=
  fold_left append xs d.

(** The raw counter differences of a call, as the code computes them. *)
Definition disk_read_delta (os : OS) (self : Monitor) : Z :=
  read_bytes (disk_io_counters os) - read_bytes (last_disk_io self).
Definition disk_write_delta (os : OS) (self : Monitor) : Z :=
  write_bytes (disk_io_counters os) - write_bytes (last_disk_io self).
Definition net_sent_delta (os : OS) (self : Monitor) : Z :=
  bytes_sent (net_io_counters os) - bytes_sent (last_network_stats self).
Definition net_recv_delta (os : OS) (self : Monitor) : Z :=
  bytes_recv (net_io_counters os) - bytes_recv (last_network_stats self).

(** The six history buffers of a monitor. *)
Definition histories (self : Monitor) : list (deque Q) :=
  [cpu_history self; mem_history self; disk_read_history self;
   disk_write_history self; network_send_history self;
   network_recv_history self].

(** The values one call of [get_system_stats] pushes, buffer by buffer. *)
Definition samples (os : OS) (self : Monitor) : list Q :=
  [cpu_percent os; virtual_memory_percent os;
   inject_Z (disk_read_delta os self) / 1024;
   inject_Z (disk_write_delta os self) / 1024;
   inject_Z (net_sent_delta os self) / 1024;
   inject_Z (net_recv_delta os self) / 1024]%Q.


Section Runs.

Variable float_str : Q -> string.

(** Successive calls of [get_system_stats], one per operating system
    answer, threading the monitor and the file system. *)
Definition ticks (oss : list OS) (self : Monitor) (fs : filesystem)
  : Monitor * filesystem :=
  fold_left
    (fun st os => fst (get_system_stats float_str os (fst st) (snd st)))
    oss (self, fs).

End Runs.

(** The same answers with another process table. *)
Definition with_process_iter (iter : list proc_read) (os : OS) : OS :=
  mk_OS (cpu_percent os) (virtual_memory_percent os) (disk_io_counters os)
    (net_io_counters os) (time_at_check os) iter (time_at_stamp os)
    (datetime_now os).


(** The delta of the specification's rate sampler: a negative difference
    is replaced by zero. *)
Definition spec_clamped_delta (current previous : Z) : Z :=
  Z.max 0 (current - previous).


(** [num] after [k] rounds of [num /= 1024.0]. *)
Fixpoint scaled (k : nat) (num : Q) : Q :=
  match k with
  | O => num
  | S k' => scaled k' (num / 1024)
  end.

(** 1024 to the power [k]. *)
Definition threshold (k : nat) : Q := inject_Z (1024 ^ Z.of_nat k).

(** [p] ranks at least as high as [q]: a greater cpu percent, or the same
    cpu percent and a memory percent that is not smaller. *)
Definition precedes (p q : process) : Prop :=
  (cpu q < cpu p \/ (cpu q == cpu p /\ memory q <= memory p))%Q.

(** Ascending order: every item is preceded by the items after it. *)
Definition ascending : list process -> Prop :=
  StronglySorted (fun a b => precedes b a).

(** Descending order: every item precedes the items after it. *)
Definition descending : list process -> Prop := StronglySorted precedes.

(** The processes of an enumeration that could be read, in order. *)
Definition readable (iter : list proc_read) : list proc_info :=
  flat_map (fun proc => match proc with inr info => [info] | inl _ => [] end)
           iter.

(** Number of line ends in a text. *)
Fixpoint line_ends (s : string) : nat :=
  match s with
  | EmptyString => 0%nat
  | String c s' =>
      ((if Ascii.eqb c (ascii_of_nat 10) then 1 else 0) + line_ends s')%nat
  end.

(** A text ends with [c]. *)
Fixpoint ends_with (c : ascii) (s : string) : bool :=
  match s with
  | EmptyString => false
  | String c' EmptyString => Ascii.eqb c' c
  | String _ s' => ends_with c s'
  end.

(** Shapes of fixed-width texts: a digit, or a given character. *)
Inductive shape : Type := Digit | Char (c : ascii).

Definition is_digit (c : ascii) : bool :=
  let n := nat_of_ascii c in ((48 <=? n) && (n <=? 57))%nat.

Fixpoint has_shape (p : list shape) (s : string) : bool :=
  match p, s with
  | [], EmptyString => true
  | Digit :: p', String c s' => is_digit c && has_shape p' s'
  | Char c0 :: p', String c s' => Ascii.eqb c c0 && has_shape p' s'
  | _, _ => false
  end.

(** [YYYY-MM-DD HH:MM:SS]. *)
Definition timestamp_shape : list shape :=
  [Digit; Digit; Digit; Digit; Char "-"; Digit; Digit; Char "-"; Digit; Digit;
   Char " "; Digit; Digit; Char ":"; Digit; Digit; Char ":"; Digit; Digit].

(** A date and time of the calendar, with a four digit year. *)
Definition calendar (t : datetime) : Prop :=
  1000 <= year t <= 9999 /\ 1 <= month t <= 12 /\ 1 <= day t <= 31
  /\ 0 <= hour t <= 23 /\ 0 <= minute t <= 59 /\ 0 <= second t <= 59.

(** ** Sample inputs *)

(** Operating system answers with given disk counters, network counters,
    clock reading and process table. *)
Definition sample_os (disk : disk_io) (net : net_io) (clock : Q)
           (iter : list proc_read) : OS :=
  {| cpu_percent := 12.5;
     virtual_memory_percent := 40;
     disk_io_counters := disk;
     net_io_counters := net;
     time_at_check := clock;
     process_iter := iter;
     time_at_stamp := clock + (1 # 100);
     datetime_now := mk_datetime 2024 3 7 9 5 0 |}.

(** A readable process with the given pid, cpu percent and memory percent. *)
Definition sample_proc (p : Z) (c m : Q) : proc_read :=
  inr (mk_proc_info p "worker" c m ["/usr/bin/worker"; "--serve"; "-v"]).

(** An enumeration of eleven readable processes, of cpu percent 1 to 11,
    and two that cannot be read. *)
Definition sample_table : list proc_read :=
  (inl AccessDenied
     :: map (fun i => sample_proc i (inject_Z i) (1 # 2))
            [3; 1; 4; 11; 5; 9; 2; 6; 10; 8; 7]
     ++ [inl NoSuchProcess])%list.

(** ** Rendering *)

(** [int(v)] of a float: the fraction is dropped, towards zero. *)
Definition int_of_float (v : Q) : Z := Z.quot (Qnum v) (Z.pos (Qden v)).

(** Text that may hold characters outside ASCII, as its code points. *)
Definition text : Type := list Z.

Definition full_block : Z := 9608.
Definition blank : Z := 32.
Definition line_feed : Z := 10.

(** [s * n] for a one character string: empty when [n] is not positive. *)
Definition times (c : Z) (n : Z) : text := repeat c (Z.to_nat n).

(** One element of the list comprehension in [create_graph]. *)
Definition graph_row (v : Q) : text :=
  (times full_block (int_of_float v / 2)
     ++ times blank (50 - int_of_float v / 2) ++ [line_feed])%list.

(** [rich.panel.Panel(renderable, title=..., border_style=...)]. *)
Record Panel (R : Type) : Type := mk_Panel {
  renderable : R;
  title : string;
  border_style : string
}.
Arguments mk_Panel {R} _ _ _.
Arguments renderable {R} _.
Arguments title {R} _.
Arguments border_style {R} _.

(** [create_graph]: the rows joined, in a panel. *)
Definition create_graph (history : deque Q) (title color : string) : Panel text :=
  let graph_str := concat (map graph_row (items history)) in
  mk_Panel graph_str title color.

(** [f"{num:.1f}"]. *)
Definition format_1f (num : Q) : string :=
  let h := round_half_even (Qabs num * 10) in
  (if Qnum num <? 0 then "-" else "")
    ++ decimal (h / 10) ++ "." ++ decimal (h mod 10).

(** [str] of an [int]. *)
Definition str_int (n : Z) : string :=
  if n <? 0 then "-" ++ decimal (- n) else decimal n.

(** [rich.table.Table]: its options, columns (header and width) and rows. *)
Record Table : Type := mk_Table {
  show_header : bool;
  header_style : string;
  columns : list (string * Z);
  rows : list (list string)
}.

Definition add_column (header : string) (width : Z) (t : Table) : Table :=
  mk_Table (show_header t) (header_style t)
           (columns t ++ [(header, width)])%list (rows t).

Definition add_row (cells : list string) (t : Table) : Table :=
  mk_Table (show_header t) (header_style t) (columns t)
           (rows t ++ [cells])%list.

(** [create_process_table]. *)
Definition create_process_table (self : Monitor) : Table :=
  let table := mk_Table true "bold magenta" [] [] in
  let table := add_column "PID" 8 table in
  let table := add_column "Name" 20 table in
  let table := add_column "CPU%" 8 table in
  let table := add_column "Mem%" 8 table in
  let table := add_column "Command" 50 table in
  fold_left
    (fun table proc =>
       add_row [str_int (pid proc);
                substring 0 20 (name proc);
                format_1f (cpu proc);
                format_1f (memory proc);
                substring 0 45 (cmd proc)] table)
    (processes self) table.

(** [psutil.sensors_battery()], when there is a battery. *)
Record battery : Type := mk_battery { percent : Q; power_plugged : bool }.

(** What [create_dashboard] asks besides the sampler's readings:
    [psutil.sensors_battery()] and the four [platform] strings. *)
Record Host : Type := mk_Host {
  sensors_battery : option battery;
  platform_system : string;
  platform_release : string;
  platform_processor : string;
  platform_machine : string
}.

(** What a region of the screen shows. *)
Inductive content : Type :=
| Overview (p : Panel string)
| Graph (p : Panel text)
| Processes (p : Panel Table).

(** [rich.layout.Layout]: a renderable or nothing, a name or none, a ratio
    (1 unless given), and the regions it is split into, in a column or in
    a row. *)
Inductive direction : Type := Column | Row.

#[warnings="-register-all"]
Inductive Layout : Type :=
| mk_Layout (shown : option content) (layout_name : option string)
            (ratio : Z) (split : direction) (children : list Layout).

Definition split_column (children : list Layout) (l : Layout) : Layout :=
  match l with mk_Layout r n k _ _ => mk_Layout r n k Column children end.

Definition split_row (children : list Layout) (l : Layout) : Layout :=
  match l with mk_Layout r n k _ _ => mk_Layout r n k Row children end.

Definition children_of (l : Layout) : list Layout :=
  match l with mk_Layout _ _ _ _ c => c end.

Section Dashboard.

Variable float_str : Q -> string.

(** The battery line of the overview. *)
Definition battery_info (b : option battery) : string :=
  match b with
  | Some b =>
      format_2f (percent b) ++ "% "
        ++ (if power_plugged b then "(Charging)" else "(Discharging)")
  | None => "N/A"
  end.

(** The system line of the overview. *)
Definition system_info (host : Host) : string :=
  platform_system host ++ " " ++ platform_release host ++ " | "
    ++ platform_processor host ++ " | " ++ platform_machine host.

(** The text of the overview panel. *)
Definition overview_text (st : stats) (host : Host) : string :=
  "[bold blue]CPU:[/] " ++ float_str (stats_cpu st) ++ "%" ++ newline
    ++ "[bold red]Memory:[/] " ++ float_str (stats_memory st) ++ "%" ++ newline
    ++ "[bold yellow]Disk Read:[/] " ++ read (stats_disk_activity st) ++ newline
    ++ "[bold yellow]Disk Write:[/] " ++ write (stats_disk_activity st) ++ newline
    ++ "[bold cyan]Network:[/] " ++ sent (stats_network st) ++ " | "
    ++ received (stats_network st) ++ newline
    ++ "[bold green]Battery:[/] " ++ battery_info (sensors_battery host) ++ newline
    ++ "[bold magenta]System:[/] " ++ system_info host.

(** [create_dashboard]. *)
Definition create_dashboard (os : OS) (host : Host) (self : Monitor)
           (fs : filesystem) : Monitor * filesystem * Layout :=
  let '(self, fs, st) := get_system_stats float_str os self fs in
  let layout := mk_Layout None None 1 Column [] in
  let overview_panel :=
    mk_Panel (overview_text st host) "System Overview" "blue" in
  let cpu_graph := create_graph (cpu_history self) "CPU Usage" "green" in
  let mem_graph := create_graph (mem_history self) "Memory Usage" "red" in
  let disk_read_graph :=
    create_graph (disk_read_history self) "Disk Read KB/s" "yellow" in
  let disk_write_graph :=
    create_graph (disk_write_history self) "Disk Write KB/s" "magenta" in
  let net_graph :=
    create_graph (network_send_history self) "Network Activity" "cyan" in
  let process_panel :=
    mk_Panel (create_process_table self) "Top Processes" "green" in
  let middle :=
    split_row
      [mk_Layout (Some (Graph cpu_graph)) (Some "cpu") 1 Column [];
       mk_Layout (Some (Graph mem_graph)) (Some "memory") 1 Column [];
       mk_Layout (Some (Graph disk_read_graph)) (Some "disk_read") 1 Column [];
       mk_Layout (Some (Graph disk_write_graph)) (Some "disk_write") 1 Column [];
       mk_Layout (Some (Graph net_graph)) (Some "network") 1 Column []]
      (mk_Layout None (Some "middle") 1 Column []) in
  let bottom :=
    split_row
      [mk_Layout (Some (Processes process_panel)) (Some "processes") 3 Column []]
      (mk_Layout None (Some "bottom") 1 Column []) in
  let layout :=
    split_column
      [mk_Layout (Some (Overview overview_panel)) (Some "overview") 1 Column [];
       middle; bottom]
      layout in
  (self, fs, layout).

(** [run], for the dashboards drawn before the interrupt: the one given to
    [Live] and one per turn of the loop.  The interrupt is taken to arrive
    while the loop sleeps, after [length turns] turns; [run] then prints
    the stop message and returns; the last component is what [print]
    writes. *)
Definition run (first : OS * Host) (turns : list (OS * Host))
           (self : Monitor) (fs : filesystem)
  : Monitor * filesystem * list Layout * string :=
  let '(self, fs, shown) :=
    fold_left
      (fun acc turn =>
         let '(self, fs, shown) := acc in
         let '(self, fs, layout) :=
           create_dashboard (fst turn) (snd turn) self fs in
         (self, fs, (shown ++ [layout])%list))
      (first :: turns) (self, fs, []) in
  (self, fs, shown, newline ++ "Monitoring stopped." ++ newline).

End Dashboard.

(** ** Vocabulary of the further statements *)

(** The process has the sort key [k], up to equality of numbers. *)
Definition same_key (k : Q * Q) (p : process) : bool :=
  Qeq_bool (cpu p) (fst k) && Qeq_bool (memory p) (snd k).

(** Successive differences of counter readings, from a first reading. *)
Fixpoint differences (prev : Z) (xs : list Z) : list Z :=
  match xs with
  | [] => []
  | x :: xs' => (x - prev) :: differences x xs'
  end.

(** A difference of bytes as pushed to a history buffer. *)
Definition kilobytes (d : Z) : Q := (inject_Z d / 1024)%Q.

(** Sum of a list of numbers. *)
Definition total (l : list Q) : Q := fold_right Qplus 0%Q l.

(** The operations of a monitor that change it or the file system. *)
Inductive call : Type :=
| Call_get_system_stats (os : OS)
| Call_get_disk_activity (os : OS)
| Call_log_performance (now : datetime) (st : stats)
| Call_create_dashboard (os : OS) (host : Host).

Section Calls.

Variable float_str : Q -> string.

Definition perform (state : Monitor * filesystem) (c : call)
  : Monitor * filesystem :=
  let (self, fs) := state in
  match c with
  | Call_get_system_stats os => fst (get_system_stats float_str os self fs)
  | Call_get_disk_activity os => (fst (get_disk_activity os self), fs)
  | Call_log_performance now st =>
      (self, log_performance float_str now self st fs)
  | Call_create_dashboard os host =>
      fst (create_dashboard float_str os host self fs)
  end.

End Calls.

(** The shape every monitor has: buffers of bound 50 holding at most 50
    values, at most 10 cached processes, the log file name and the
    interval of [__init__]. *)
Definition sound (self : Monitor) : Prop :=
  Forall (fun h => maxlen h = 50%nat /\ (len h <= 50)%nat) (histories self)
  /\ (length (processes self) <= 10)%nat
  /\ log_file self = "system_performance.log"
  /\ process_update_interval self = 2%Q.

(** Texts one after the other. *)
Definition joined (l : list string) : string :=
  fold_right String.append "" l.

(** An integer that a float holds exactly: up to 2 to the 53 in
    magnitude. *)
Definition in_float_range (n : Z) : Prop := Z.abs n <= 2 ^ 53.

(** The cpu percent of the entry was denied. *)
Definition cpu_denied (x : entry) : bool :=
  match entry_cpu x with None => true | Some _ => false end.

(** Both percentages of the process were granted. *)
Definition percentages_granted (info : info_dict) : Prop :=
  dict_cpu_percent info <> None /\ dict_memory_percent info <> None.
(** * Properties *)

(** ** History buffers *)

Lemma tl_skipn {A : Type} (k : nat) (l : list A) :
  tl (skipn k l) = skipn (S k) l.
Proof.
  revert l; induction k as [|k IH]; intros [|a l]; try reflexivity.
  change (skipn (S k) (a :: l)) with (skipn k l).
  rewrite IH. reflexivity.
Qed.

Lemma maxlen_pushes {A : Type} (xs : list A) (d : deque A) :
  maxlen (pushes d xs) = maxlen d.
Proof.
  unfold pushes.
  revert d; induction xs as [|x xs IH]; intros d; cbn [fold_left];
    [reflexivity|].
  rewrite IH. reflexivity.
Qed.

Lemma pushes_snoc {A : Type} (d : deque A) (xs : list A) (x : A) :
  pushes d (xs ++ [x]) = append (pushes d xs) x.
Proof. unfold pushes. rewrite fold_left_app. reflexivity. Qed.

(** From an empty deque the items are the last [n] values pushed. *)
Lemma items_pushes {A : Type} (n : nat) (xs : list A) :
  items (pushes (mk_deque n []) xs) = skipn (length xs - n) xs.
Proof.
  induction xs as [|x xs IH] using rev_ind.
  - reflexivity.
  - rewrite pushes_snoc. unfold append.
    rewrite maxlen_pushes, IH. cbn [items maxlen].
    rewrite !length_app, length_skipn. cbn [length].
    destruct (n <? length xs - (length xs - n) + 1)%nat eqn:E.
    + apply Nat.ltb_lt in E.
      replace (length xs + 1 - n)%nat with (S (length xs - n)) by lia.
      rewrite <- tl_skipn, skipn_app.
      replace (length xs - n - length xs)%nat with 0%nat by lia.
      reflexivity.
    + apply Nat.ltb_ge in E.
      replace (length xs + 1 - n)%nat with 0%nat by lia.
      replace (length xs - n)%nat with 0%nat by lia.
      reflexivity.
Qed.

Lemma len_pushes {A : Type} (n : nat) (xs : list A) :
  len (pushes (mk_deque n []) xs) = Nat.min n (length xs).
Proof. unfold len. rewrite items_pushes, length_skipn. lia. Qed.

Lemma append_full_or_not {A : Type} (n : nat) (xs : list A) (x : A) :
  let h := pushes (mk_deque n []) xs in
  items (append h x)
  = if (n <=? length xs)%nat then (tl (items h ++ [x]))%list
    else (items h ++ [x])%list.
Proof.
  cbv zeta. unfold append. rewrite maxlen_pushes. cbn [items maxlen].
  rewrite length_app. cbn [length].
  pose proof (len_pushes n xs) as L. unfold len in L. rewrite L.
  destruct (n <=? length xs)%nat eqn:E.
  - apply Nat.leb_le in E.
    replace (n <? Nat.min n (length xs) + 1)%nat with true
      by (symmetry; apply Nat.ltb_lt; lia).
    reflexivity.
  - apply Nat.leb_gt in E.
    replace (n <? Nat.min n (length xs) + 1)%nat with false
      by (symmetry; apply Nat.ltb_ge; lia).
    reflexivity.
Qed.

(** C3. Each of the six history buffers of a new monitor is a deque of
    bound 50.  After any sequence [xs] of pushes its length is
    [min 50 (length xs)], its items are the last 50 pushed values in the
    order they were pushed (all of them while fewer than 50 were pushed),
    and one more push into a buffer that already took 50 values drops its
    oldest item and puts the new value last. *)
Theorem history_buffer_keeps_last_50
        (net0 : net_io) (disk0 : disk_io) (xs : list Q) :
  Forall
    (fun h0 : deque Q =>
       let h := pushes h0 xs in
       len h = Nat.min 50 (length xs)
       /\ items h = skipn (length xs - 50) xs
       /\ forall x : Q,
            items (append h x)
            = if (50 <=? length xs)%nat then (tl (items h) ++ [x])%list
              else (items h ++ [x])%list)
    (histories (__init__ net0 disk0)).
Proof.
  assert (G : let h := pushes (mk_deque 50 []) xs in
              len h = Nat.min 50 (length xs)
              /\ items h = skipn (length xs - 50) xs
              /\ forall x : Q,
                   items (append h x)
                   = if (50 <=? length xs)%nat then (tl (items h) ++ [x])%list
                     else (items h ++ [x])%list).
  { cbv zeta. split; [apply len_pushes|]. split; [apply items_pushes|].
    intros x. rewrite (append_full_or_not 50 xs x).
    destruct (50 <=? length xs)%nat eqn:E; [|reflexivity].
    apply Nat.leb_le in E.
    pose proof (len_pushes 50 xs) as L. unfold len in L.
    destruct (items (pushes (mk_deque 50 []) xs)); [|reflexivity].
    cbn [length] in L. lia. }
  unfold histories, __init__; cbn.
  repeat (constructor; [exact G|]). constructor.
Qed.

(** ** Comparisons and formatting *)

Lemma Qlt_bool_iff (x y : Q) : Qlt_bool x y = true <-> (x < y)%Q.
Proof.
  unfold Qlt_bool. rewrite negb_true_iff. split.
  - intros H. apply Qnot_le_lt. intros L.
    apply Qle_bool_iff in L. congruence.
  - intros H. destruct (Qle_bool y x) eqn:E; [|reflexivity].
    apply Qle_bool_iff in E. apply Qlt_not_le in H. contradiction.
Qed.

Lemma Qlt_bool_false_iff (x y : Q) : Qlt_bool x y = false <-> (y <= x)%Q.
Proof.
  unfold Qlt_bool. rewrite negb_false_iff. apply Qle_bool_iff.
Qed.

Lemma append_assoc (a b c : string) : (a ++ b) ++ c = a ++ b ++ c.
Proof. induction a as [|x a IH]; simpl; [reflexivity|]. now rewrite IH. Qed.

Lemma round_half_even_inject (z : Z) : round_half_even (inject_Z z) = z.
Proof.
  unfold round_half_even, inject_Z. cbn [Qnum Qden].
  rewrite Z.mod_1_r, Z.div_1_r. reflexivity.
Qed.

(** An integer is printed with its digits and [.00]. *)
Lemma format_2f_inject (z : Z) :
  format_2f (inject_Z z)
  = (if z <? 0 then "-" else "") ++ decimal (Z.abs z) ++ ".00".
Proof.
  unfold format_2f.
  replace (Qabs (inject_Z z) * 100)%Q with (inject_Z (Z.abs z * 100))
    by reflexivity.
  rewrite round_half_even_inject. cbn [inject_Z Qnum].
  rewrite Z.div_mul by lia.
  rewrite Z.mod_mul by lia.
  replace (Z.abs z * 100) with (Z.abs z * 10 * 10) by lia.
  rewrite Z.mod_mul by lia.
  reflexivity.
Qed.

(** Below 1024 the loop returns at once, with the unit [B]. *)
Lemma convert_bytes_below_1024 (num : Q) :
  (num < 1024)%Q -> _convert_bytes num = format_2f num ++ " B".
Proof.
  intros H. apply Qlt_bool_iff in H.
  unfold _convert_bytes, units. cbn [convert_loop]. rewrite H. reflexivity.
Qed.

Lemma convert_bytes_negative (d : Z) :
  0 < d -> _convert_bytes (inject_Z (- d)) = "-" ++ decimal d ++ ".00 B".
Proof.
  intros H. rewrite convert_bytes_below_1024.
  - rewrite format_2f_inject.
    replace (- d <? 0) with true by (symmetry; apply Z.ltb_lt; lia).
    replace (Z.abs (- d)) with d by lia.
    rewrite !append_assoc. reflexivity.
  - unfold Qlt, inject_Z. cbn [Qnum Qden]. lia.
Qed.

Lemma within_half (n z : Z) (d : positive) :
  (- (1 # 2) <= inject_Z z - (n # d) <= 1 # 2)%Q
  <-> - Z.pos d <= 2 * (z * Z.pos d - n) <= Z.pos d.
Proof.
  unfold Qle, Qminus, Qplus, Qopp, inject_Z. cbn [Qnum Qden].
  rewrite ?Pos2Z.inj_mul. lia.
Qed.

(** Rounding moves a number by at most one half. *)
Lemma round_half_even_close (q : Q) :
  (Qabs (inject_Z (round_half_even q) - q) <= 1 # 2)%Q.
Proof.
  destruct q as [n d]. unfold round_half_even. cbn [Qnum Qden].
  pose proof (Z.div_mod n (Z.pos d) ltac:(lia)) as E.
  pose proof (Z.mod_pos_bound n (Z.pos d) ltac:(lia)) as B.
  apply Qabs_Qle_condition.
  generalize dependent (n / Z.pos d). generalize dependent (n mod Z.pos d).
  intros r B fl E.
  destruct (Z.compare_spec (2 * r) (Z.pos d)) as [K|K|K].
  - destruct (Z.even fl); apply within_half; nia.
  - apply within_half; nia.
  - apply within_half; nia.
Qed.

(** ** Scaling by 1024 *)

Lemma threshold_pos (k : nat) : (0 < threshold k)%Q.
Proof.
  unfold threshold, Qlt, inject_Z. cbn [Qnum Qden].
  rewrite !Z.mul_1_r. apply Z.pow_pos_nonneg; lia.
Qed.

Lemma threshold_S (k : nat) : (threshold (S k) == 1024 * threshold k)%Q.
Proof.
  unfold threshold. rewrite Nat2Z.inj_succ, Z.pow_succ_r by lia.
  rewrite inject_Z_mult. reflexivity.
Qed.

Lemma scaled_div (k : nat) (num : Q) : (scaled k num == num / threshold k)%Q.
Proof.
  revert num. induction k as [|k IH]; intros num.
  - cbn [scaled]. unfold threshold. cbn. field.
  - cbn [scaled]. rewrite IH, threshold_S.
    pose proof (threshold_pos k) as P.
    field. intros E. rewrite E in P. discriminate.
Qed.

(** The loop on a list of units: it stops at the first unit for which the
    scaled number is below 1024. *)
Lemma convert_loop_stops (us : list string) (k : nat) (num : Q) :
  (k < length us)%nat ->
  (forall j : nat, (j < k)%nat -> 1024 <= scaled j num)%Q ->
  (scaled k num < 1024)%Q ->
  convert_loop us num = format_2f (scaled k num) ++ " " ++ nth k us "".
Proof.
  revert k num. induction us as [|u us IH]; intros k num L Lo Hi.
  - cbn [length] in L. lia.
  - cbn [convert_loop]. destruct k as [|k].
    + cbn [scaled nth] in *. apply Qlt_bool_iff in Hi. rewrite Hi. reflexivity.
    + pose proof (Lo 0%nat ltac:(lia)) as L0. cbn [scaled] in L0.
      apply Qlt_bool_false_iff in L0. rewrite L0.
      cbn [scaled nth]. apply IH.
      * cbn [length] in L. lia.
      * intros j Hj. apply (Lo (S j)). lia.
      * exact Hi.
Qed.

Lemma convert_loop_falls_through (us : list string) (num : Q) :
  (forall j : nat, (j < length us)%nat -> 1024 <= scaled j num)%Q ->
  convert_loop us num = format_2f (scaled (length us) num) ++ " PB".
Proof.
  revert num. induction us as [|u us IH]; intros num Lo.
  - reflexivity.
  - cbn [convert_loop length scaled].
    pose proof (Lo 0%nat ltac:(cbn [length]; lia)) as L0. cbn [scaled] in L0.
    apply Qlt_bool_false_iff in L0. rewrite L0.
    apply IH. intros j Hj. apply (Lo (S j)). cbn [length]. lia.
Qed.

Lemma threshold_mono (j k : nat) : (j <= k)%nat -> (threshold j <= threshold k)%Q.
Proof.
  intros H. unfold threshold. rewrite <- Zle_Qle.
  apply Z.pow_le_mono_r; lia.
Qed.

(** At or above 1024 to the [k], the first [k] tests of the loop fail. *)
Lemma scaled_above (k : nat) (num : Q) :
  (threshold k <= num)%Q ->
  (forall j : nat, (j < k)%nat -> 1024 <= scaled j num)%Q.
Proof.
  intros H j Hj. rewrite scaled_div.
  apply Qle_shift_div_l; [apply threshold_pos|].
  rewrite <- threshold_S.
  eapply Qle_trans; [apply (threshold_mono (S j) k); lia|exact H].
Qed.

Lemma scaled_below (k : nat) (num : Q) :
  (num < threshold (S k))%Q -> (scaled k num < 1024)%Q.
Proof.
  intros H. rewrite scaled_div.
  apply Qlt_shift_div_r; [apply threshold_pos|].
  rewrite <- threshold_S. exact H.
Qed.

(** ** What one call of the sampler does *)

Lemma get_disk_activity_histories (os : OS) (self : Monitor) :
  histories (fst (get_disk_activity os self))
  = [cpu_history self; mem_history self;
     append (disk_read_history self) (inject_Z (disk_read_delta os self) / 1024)%Q;
     append (disk_write_history self) (inject_Z (disk_write_delta os self) / 1024)%Q;
     network_send_history self; network_recv_history self].
Proof. reflexivity. Qed.

Lemma get_disk_activity_report (os : OS) (self : Monitor) :
  snd (get_disk_activity os self)
  = {| read := _convert_bytes (inject_Z (disk_read_delta os self)) ++ "/s";
       write := _convert_bytes (inject_Z (disk_write_delta os self)) ++ "/s" |}.
Proof. reflexivity. Qed.

Section Sampler.

Variable float_str : Q -> string.

Lemma get_system_stats_histories (os : OS) (self : Monitor) (fs : filesystem) :
  histories (fst (fst (get_system_stats float_str os self fs)))
  = map (fun hv => append (fst hv) (snd hv))
        (combine (histories self) (samples os self)).
Proof.
  unfold get_system_stats, get_disk_activity.
  cbv zeta. cbn [fst snd].
  match goal with |- context [if ?b then _ else _] => destruct b end;
    reflexivity.
Qed.

Lemma get_system_stats_report (os : OS) (self : Monitor) (fs : filesystem) :
  snd (get_system_stats float_str os self fs)
  = {| stats_cpu := cpu_percent os;
       stats_memory := virtual_memory_percent os;
       stats_disk_activity :=
         {| read := _convert_bytes (inject_Z (disk_read_delta os self)) ++ "/s";
            write := _convert_bytes (inject_Z (disk_write_delta os self)) ++ "/s" |};
       stats_network :=
         {| sent := _convert_bytes (inject_Z (net_sent_delta os self)) ++ "/s";
            received := _convert_bytes (inject_Z (net_recv_delta os self)) ++ "/s" |} |}.
Proof. reflexivity. Qed.

End Sampler.

(** ** Lengths of the buffers along a run *)

Lemma maxlen_append {A : Type} (d : deque A) (x : A) :
  maxlen (append d x) = maxlen d.
Proof. reflexivity. Qed.

Lemma len_append {A : Type} (d : deque A) (x : A) :
  len (append d x)
  = if (maxlen d <? len d + 1)%nat then len d else (len d + 1)%nat.
Proof.
  unfold len, append. cbv zeta. cbn [items].
  rewrite length_app. cbn [length].
  destruct (maxlen d <? length (items d) + 1)%nat;
    [|apply length_app].
  destruct (items d) as [|a l]; [reflexivity|].
  cbn [app tl length]. rewrite length_app. cbn [length]. lia.
Qed.

(** A buffer of bound 50 holding [min n 50] values holds
    [min (n + 1) 50] after one more [append]. *)
Lemma filled_append (n : nat) (d : deque Q) (x : Q) :
  maxlen d = 50%nat /\ len d = Nat.min n 50 ->
  maxlen (append d x) = 50%nat /\ len (append d x) = Nat.min (n + 1) 50.
Proof.
  intros [M L]. rewrite maxlen_append, len_append, M, L.
  split; [reflexivity|].
  destruct (50 <? Nat.min n 50 + 1)%nat eqn:E.
  - apply Nat.ltb_lt in E. lia.
  - apply Nat.ltb_ge in E. lia.
Qed.

Section Run_lengths.

Variable float_str : Q -> string.

Lemma filled_get_system_stats (n : nat) (os : OS) (self : Monitor)
      (fs : filesystem) :
  Forall (fun h => maxlen h = 50%nat /\ len h = Nat.min n 50)
         (histories self) ->
  Forall (fun h => maxlen h = 50%nat /\ len h = Nat.min (n + 1) 50)
         (histories (fst (fst (get_system_stats float_str os self fs)))).
Proof.
  intros H. rewrite get_system_stats_histories.
  unfold histories, samples in *. cbn [combine map fst snd].
  repeat match goal with
         | H : Forall _ (_ :: _) |- _ => inversion H; clear H; subst
         end.
  repeat (constructor; [apply filled_append; assumption|]).
  constructor.
Qed.

Lemma filled_ticks (oss : list OS) (n : nat) (self : Monitor)
      (fs : filesystem) :
  Forall (fun h => maxlen h = 50%nat /\ len h = Nat.min n 50)
         (histories self) ->
  Forall (fun h => maxlen h = 50%nat /\ len h = Nat.min (n + length oss) 50)
         (histories (fst (ticks float_str oss self fs))).
Proof.
  revert n self fs. unfold ticks.
  induction oss as [|os oss IH]; intros n self fs H; cbn [fold_left length].
  - rewrite Nat.add_0_r. exact H.
  - cbn [fst snd].
    rewrite (surjective_pairing (fst (get_system_stats float_str os self fs))).
    replace (n + S (length oss))%nat with ((n + 1) + length oss)%nat by lia.
    apply IH, filled_get_system_stats, H.
Qed.

End Run_lengths.

(** ** Deltas and rates *)

(** C1, as the code has it. The delta of each of the four counters is the
    plain difference current - previous, with no clamping: that difference
    divided by 1024 is what is pushed to the history buffer and that
    difference, formatted, is what is reported.  The pushed value is
    non-negative exactly when the counter did not decrease. *)
Theorem deltas_are_plain_differences
        (float_str : Q -> string) (os : OS) (self : Monitor) (fs : filesystem) :
  let self' := fst (fst (get_system_stats float_str os self fs)) in
  let st := snd (get_system_stats float_str os self fs) in
  let dr := read_bytes (disk_io_counters os) - read_bytes (last_disk_io self) in
  let dw := write_bytes (disk_io_counters os) - write_bytes (last_disk_io self) in
  let ns := bytes_sent (net_io_counters os) - bytes_sent (last_network_stats self) in
  let nr := bytes_recv (net_io_counters os) - bytes_recv (last_network_stats self) in
  (disk_read_history self' = append (disk_read_history self) (inject_Z dr / 1024)%Q
   /\ disk_write_history self' = append (disk_write_history self) (inject_Z dw / 1024)%Q
   /\ network_send_history self' = append (network_send_history self) (inject_Z ns / 1024)%Q
   /\ network_recv_history self' = append (network_recv_history self) (inject_Z nr / 1024)%Q)
  /\ (read (stats_disk_activity st) = _convert_bytes (inject_Z dr) ++ "/s"
      /\ write (stats_disk_activity st) = _convert_bytes (inject_Z dw) ++ "/s"
      /\ sent (stats_network st) = _convert_bytes (inject_Z ns) ++ "/s"
      /\ received (stats_network st) = _convert_bytes (inject_Z nr) ++ "/s")
  /\ (fst (get_disk_activity os self)
      = set_disk_write_history
          (append (disk_write_history self) (inject_Z dw / 1024)%Q)
          (set_disk_read_history
             (append (disk_read_history self) (inject_Z dr / 1024)%Q)
             (set_last_disk_io (disk_io_counters os) self)))
  /\ ((0 <= inject_Z dr / 1024)%Q <-> 0 <= dr)
  /\ ((0 <= inject_Z dw / 1024)%Q <-> 0 <= dw)
  /\ ((0 <= inject_Z ns / 1024)%Q <-> 0 <= ns)
  /\ ((0 <= inject_Z nr / 1024)%Q <-> 0 <= nr).
Proof.
  cbv zeta.
  pose proof (get_system_stats_histories float_str os self fs) as H.
  unfold histories, samples in H. cbn [combine map fst snd] in H.
  injection H as _ _ Hr Hw Hs Hn.
  assert (P : forall z : Z, (0 <= inject_Z z / 1024)%Q <-> 0 <= z).
  { intros z. unfold Qle, Qdiv, Qmult, Qinv, inject_Z. cbn [Qnum Qden]. lia. }
  repeat split; try assumption; try reflexivity; try (apply P; assumption).
Qed.

(** C1, counterexample. With a previous disk read counter of 5000 and a
    current one of 100 the delta is -4900, where the clamped delta is 0:
    a negative value is pushed to the history and a negative rate is
    reported. *)
Lemma negative_delta_is_not_clamped :
  let self := __init__ (mk_net_io 0 0) (mk_disk_io 5000 0) in
  let os := sample_os (mk_disk_io 100 0) (mk_net_io 0 0) 1700000000 [] in
  disk_read_delta os self = -4900
  /\ spec_clamped_delta 100 5000 = 0
  /\ items (disk_read_history (fst (get_disk_activity os self))) = [-4900 # 1024]
  /\ (-4900 # 1024 < 0)%Q
  /\ read (snd (get_disk_activity os self)) = "-4900.00 B/s".
Proof. cbv zeta. repeat split. Qed.



(** C10. A number below 1024, negative ones included, is formatted with
    two decimals and the unit B, unscaled.  So when a counter falls by [d]
    between two samples, [d] being at most 2 to the 53 (the integers a
    float holds exactly, which [:.2f] converts to), the rate reported for
    it is the text [-<d>.00 B/s]. *)
Theorem negative_delta_reported_unscaled (float_str : Q -> string) :
  (forall num : Q, (num < 1024)%Q -> _convert_bytes num = format_2f num ++ " B")
  /\ (forall d : Z, 0 < d -> d <= 2 ^ 53 ->
        _convert_bytes (inject_Z (- d)) = "-" ++ decimal d ++ ".00 B")
  /\ (forall (os : OS) (self : Monitor) (d : Z), 0 < d -> d <= 2 ^ 53 ->
        read_bytes (disk_io_counters os) = read_bytes (last_disk_io self) - d ->
        read (snd (get_disk_activity os self)) = "-" ++ decimal d ++ ".00 B/s")
  /\ (forall (os : OS) (self : Monitor) (d : Z), 0 < d -> d <= 2 ^ 53 ->
        write_bytes (disk_io_counters os) = write_bytes (last_disk_io self) - d ->
        write (snd (get_disk_activity os self)) = "-" ++ decimal d ++ ".00 B/s")
  /\ (forall (os : OS) (self : Monitor) (fs : filesystem) (d : Z),
        0 < d -> d <= 2 ^ 53 ->
        bytes_sent (net_io_counters os) = bytes_sent (last_network_stats self) - d ->
        sent (stats_network (snd (get_system_stats float_str os self fs)))
        = "-" ++ decimal d ++ ".00 B/s")
  /\ (forall (os : OS) (self : Monitor) (fs : filesystem) (d : Z),
        0 < d -> d <= 2 ^ 53 ->
        bytes_recv (net_io_counters os) = bytes_recv (last_network_stats self) - d ->
        received (stats_network (snd (get_system_stats float_str os self fs)))
        = "-" ++ decimal d ++ ".00 B/s").
Proof.
  assert (S : forall d : Z, 0 < d ->
            _convert_bytes (inject_Z (- d)) ++ "/s"
            = "-" ++ decimal d ++ ".00 B/s").
  { intros d H. rewrite (convert_bytes_negative d H).
    rewrite !append_assoc. reflexivity. }
  split; [exact convert_bytes_below_1024|].
  split; [intros d H _; exact (convert_bytes_negative d H)|].
  repeat split; intros;
    rewrite ?get_system_stats_report, ?get_disk_activity_report;
    cbn [read write sent received stats_network];
    unfold disk_read_delta, disk_write_delta, net_sent_delta, net_recv_delta;
    match goal with
    | E : _ = _ - ?d |- _ =>
        rewrite E;
        match goal with
        | |- context [inject_Z ?z] => replace z with (- d) by lia
        end
    end;
    apply S; assumption.
Qed.

(** C10 at a fall of 4900 bytes. *)
Lemma negative_delta_reported_unscaled_witness :
  _convert_bytes (inject_Z (- 4900)) = "-" ++ decimal 4900 ++ ".00 B"
  /\ read (snd (get_disk_activity
                  (sample_os (mk_disk_io 100 0) (mk_net_io 0 0) 1700000000 [])
                  (__init__ (mk_net_io 0 0) (mk_disk_io 5000 0))))
     = "-" ++ decimal 4900 ++ ".00 B/s".
Proof.
  destruct (negative_delta_reported_unscaled format_2f) as (_ & N & R & _).
  split.
  - apply (N 4900); [reflexivity|vm_compute; discriminate].
  - apply (R _ _ 4900); [reflexivity|vm_compute; discriminate|reflexivity].
Defined.

(** ** History buffers along calls *)



(** ** The process list cache *)

(** C4. The interval is 2 seconds and no call changes it.  When the clock
    reading minus [last_process_update] does not exceed the interval, the
    cached list and [last_process_update] are kept, and the process table
    of the operating system plays no part in the call (it is not
    enumerated).  When it exceeds the interval, the list becomes the
    enumeration of that moment and [last_process_update] the clock reading
    taken after it. *)
Theorem process_list_refreshed_after_interval
        (float_str : Q -> string) (os : OS) (self : Monitor) (fs : filesystem) :
  let self' := fst (fst (get_system_stats float_str os self fs)) in
  (forall net0 disk0, process_update_interval (__init__ net0 disk0) == 2)%Q
  /\ process_update_interval self' = process_update_interval self
  /\ ((time_at_check os - last_process_update self
       <= process_update_interval self)%Q ->
      processes self' = processes self
      /\ last_process_update self' = last_process_update self
      /\ forall iter : list proc_read,
           get_system_stats float_str (with_process_iter iter os) self fs
           = get_system_stats float_str os self fs)
  /\ ((process_update_interval self
       < time_at_check os - last_process_update self)%Q ->
      processes self' = get_running_processes (process_iter os)
      /\ last_process_update self' = time_at_stamp os).
Proof.
  cbv zeta. split; [reflexivity|].
  unfold get_system_stats, get_disk_activity. cbv zeta. cbn [fst snd].
  cbn [process_update_interval last_process_update set_last_network_stats
       set_network_recv_history set_network_send_history
       set_disk_write_history set_disk_read_history set_last_disk_io
       set_mem_history set_cpu_history time_at_check with_process_iter].
  split; [|split].
  - destruct (Qlt_bool _ _); reflexivity.
  - intros H. apply Qlt_bool_false_iff in H. rewrite H.
    repeat split.
  - intros H. apply Qlt_bool_iff in H. rewrite H.
    split; reflexivity.
Qed.

(** C4 on a monitor refreshed at 1700000000.01: a call one second later
    keeps the list, a call three seconds later replaces it. *)
Lemma process_list_refreshed_after_interval_witness :
  let self :=
    fst (fst (get_system_stats format_2f
                (sample_os (mk_disk_io 0 0) (mk_net_io 0 0) 1700000000
                           [sample_proc 1 5 1])
                (__init__ (mk_net_io 0 0) (mk_disk_io 0 0)) (fun _ => None))) in
  let soon := sample_os (mk_disk_io 0 0) (mk_net_io 0 0) 1700000001
                        [sample_proc 2 7 1] in
  let late := sample_os (mk_disk_io 0 0) (mk_net_io 0 0) 1700000003
                        [sample_proc 2 7 1] in
  (processes (fst (fst (get_system_stats format_2f soon self (fun _ => None))))
   = processes self
   /\ last_process_update
        (fst (fst (get_system_stats format_2f soon self (fun _ => None))))
      = last_process_update self)
  /\ (processes (fst (fst (get_system_stats format_2f late self (fun _ => None))))
      = get_running_processes (process_iter late)
      /\ last_process_update
           (fst (fst (get_system_stats format_2f late self (fun _ => None))))
         = time_at_stamp late).
Proof.
  cbv zeta. split.
  - match goal with
    | |- context [get_system_stats ?f ?os ?self ?fs] =>
        destruct (process_list_refreshed_after_interval f os self fs)
          as (_ & _ & K & _)
    end.
    destruct K as (P & L & _); [vm_compute; discriminate|].
    split; assumption.
  - match goal with
    | |- context [get_system_stats ?f ?os ?self ?fs] =>
        destruct (process_list_refreshed_after_interval f os self fs)
          as (_ & _ & _ & R)
    end.
    apply R. vm_compute. reflexivity.
Defined.

(** ** The byte formatter *)

(** C7. [_convert_bytes] divides by 1024 once per unit passed, through B,
    KB, MB, GB, TB and PB: a number from 1024 to the [k] up to 1024 to the
    [k + 1] (anything below 1024 for B) is divided [k] times and carries
    the [k]-th unit, a number from 1024 to the 5 on is divided 5 times and
    carries PB.  The number is printed rounded to two decimals.  1536 gives
    [1.50 KB], 0 gives [0.00 B], 1073741824 gives [1.00 GB], and the
    sampler reports each followed by [/s]. *)
Theorem convert_bytes_scales_by_1024 :
  (forall (k : nat) (num : Q),
      (k <= 4)%nat ->
      k = 0%nat \/ (threshold k <= num)%Q ->
      (num < threshold (S k))%Q ->
      _convert_bytes num = format_2f (scaled k num) ++ " " ++ nth k units "")
  /\ (forall num : Q,
        (threshold 5 <= num)%Q ->
        _convert_bytes num = format_2f (scaled 5 num) ++ " PB")
  /\ (forall (k : nat) (num : Q), scaled k num == num / threshold k)%Q
  /\ units = ["B"; "KB"; "MB"; "GB"; "TB"]
  /\ (forall num : Q,
        let h := round_half_even (Qabs num * 100) in
        format_2f num
        = (if Qnum num <? 0 then "-" else "")
            ++ decimal (h / 100) ++ "."
            ++ decimal (h mod 100 / 10) ++ decimal (h mod 10)
        /\ (Qabs (inject_Z h - Qabs num * 100) <= 1 # 2)%Q
        /\ 0 <= h mod 100 / 10 <= 9 /\ 0 <= h mod 10 <= 9)
  /\ (_convert_bytes 1536 = "1.50 KB"
      /\ _convert_bytes 0 = "0.00 B"
      /\ _convert_bytes 1073741824 = "1.00 GB")
  /\ (forall (os : OS) (self : Monitor),
        (disk_read_delta os self = 1536 ->
         read (snd (get_disk_activity os self)) = "1.50 KB/s")
        /\ (disk_read_delta os self = 0 ->
            read (snd (get_disk_activity os self)) = "0.00 B/s")
        /\ (disk_read_delta os self = 1073741824 ->
            read (snd (get_disk_activity os self)) = "1.00 GB/s")).
Proof.
  split; [|split; [|split; [|split; [|split; [|split]]]]].
  - intros k num K Lo Hi. unfold _convert_bytes.
    apply convert_loop_stops.
    + unfold units. cbn [length]. lia.
    + destruct Lo as [->|Lo]; [intros j Hj; lia|].
      apply scaled_above, Lo.
    + apply scaled_below, Hi.
  - intros num Lo. unfold _convert_bytes.
    apply (convert_loop_falls_through units num).
    apply scaled_above, Lo.
  - apply scaled_div.
  - reflexivity.
  - intros num. cbv zeta. split; [reflexivity|].
    split; [apply round_half_even_close|].
    set (h := round_half_even (Qabs num * 100)).
    pose proof (Z.mod_pos_bound h 100 ltac:(lia)).
    pose proof (Z.mod_pos_bound h 10 ltac:(lia)).
    split; [|lia].
    split; [apply Z.div_pos; lia|].
    apply Z.lt_succ_r. apply Z.div_lt_upper_bound; lia.
  - repeat split.
  - intros os self. rewrite get_disk_activity_report. cbn [read].
    repeat split; intros ->; reflexivity.
Qed.

(** C7 at 1536, between 1024 and 1024 squared. *)
Lemma convert_bytes_scales_by_1024_witness :
  _convert_bytes 1536 = format_2f (scaled 1 1536) ++ " " ++ nth 1 units "".
Proof.
  destruct convert_bytes_scales_by_1024 as (S & _).
  apply (S 1%nat 1536%Q).
  - lia.
  - right. vm_compute. discriminate.
  - vm_compute. reflexivity.
Defined.

(** ** Ranking the processes *)

Lemma tuple_lt_false_iff (a b : Q * Q) :
  tuple_lt a b = false
  <-> (fst b < fst a \/ (fst b == fst a /\ snd b <= snd a))%Q.
Proof.
  unfold tuple_lt. destruct (Qeq_bool (fst a) (fst b)) eqn:E.
  - apply Qeq_bool_iff in E. rewrite Qlt_bool_false_iff. split.
    + intros H. right. split; [symmetry; exact E|exact H].
    + intros [H|[_ H]]; [lra|exact H].
  - apply Qeq_bool_neq in E. rewrite Qlt_bool_false_iff. split.
    + intros H. left. lra.
    + intros [H|[H _]]; [lra|]. symmetry in H. contradiction.
Qed.

Lemma tuple_lt_precedes (x y : process) :
  tuple_lt (key x) (key y) = false <-> precedes x y.
Proof. unfold precedes. rewrite tuple_lt_false_iff. reflexivity. Qed.

Lemma precedes_trans (p q r : process) :
  precedes p q -> precedes q r -> precedes p r.
Proof. unfold precedes. intros [H|[H1 H2]] [K|[K1 K2]]; lra. Qed.

Lemma precedes_total (p q : process) : precedes p q \/ precedes q p.
Proof.
  unfold precedes.
  destruct (Qlt_le_dec (cpu q) (cpu p)) as [H|H]; [lra|].
  destruct (Qlt_le_dec (cpu p) (cpu q)) as [K|K]; [lra|].
  destruct (Qlt_le_dec (memory p) (memory q)) as [M|M]; [right|left]; lra.
Qed.

Lemma insert_perm (x : process) (l : list process) :
  Permutation (insert x l) (x :: l).
Proof.
  induction l as [|y l IH]; cbn [insert]; [reflexivity|].
  destruct (tuple_lt (key x) (key y)); [reflexivity|].
  rewrite IH. apply perm_swap.
Qed.

Lemma insert_ascending (x : process) (l : list process) :
  ascending l -> ascending (insert x l).
Proof.
  unfold ascending.
  induction l as [|y l IH]; intros S; cbn [insert].
  - constructor; constructor.
  - apply StronglySorted_inv in S. destruct S as [S F].
    destruct (tuple_lt (key x) (key y)) eqn:E.
    + assert (P : precedes y x).
      { destruct (precedes_total y x) as [P|P]; [exact P|].
        apply tuple_lt_precedes in P. congruence. }
      constructor; [constructor; assumption|].
      constructor; [exact P|].
      eapply Forall_impl; [|exact F].
      intros z Hz. cbv beta in *. eapply precedes_trans; eassumption.
    + apply tuple_lt_precedes in E.
      constructor; [apply IH, S|].
      eapply Permutation_Forall; [symmetry; apply insert_perm|].
      constructor; assumption.
Qed.

Lemma sort_ascending_spec (l acc : list process) :
  ascending acc ->
  ascending (fold_left (fun acc x => insert x acc) l acc)
  /\ Permutation (fold_left (fun acc x => insert x acc) l acc) (acc ++ l).
Proof.
  revert acc. induction l as [|x l IH]; intros acc S; cbn [fold_left].
  - rewrite app_nil_r. split; [exact S|reflexivity].
  - destruct (IH (insert x acc) (insert_ascending x acc S)) as [A P].
    split; [exact A|].
    rewrite P, insert_perm. cbn [app]. apply Permutation_middle.
Qed.

Lemma StronglySorted_app {A : Type} (R : A -> A -> Prop) (l1 l2 : list A) :
  StronglySorted R (l1 ++ l2)
  <-> StronglySorted R l1 /\ StronglySorted R l2
      /\ forall a b, In a l1 -> In b l2 -> R a b.
Proof.
  induction l1 as [|x l1 IH]; cbn [app].
  - split.
    + intros S. repeat split; [constructor|exact S|intros a b []].
    + intros (_ & S & _). exact S.
  - split.
    + intros S. apply StronglySorted_inv in S. destruct S as [S F].
      apply IH in S. destruct S as (S1 & S2 & C).
      apply Forall_app in F. destruct F as [F1 F2].
      repeat split; [constructor; assumption|exact S2|].
      intros a b [<-|Ha] Hb.
      * rewrite Forall_forall in F2. apply F2, Hb.
      * apply C; assumption.
    + intros (S1 & S2 & C).
      apply StronglySorted_inv in S1. destruct S1 as [S1 F1].
      constructor.
      * apply IH. repeat split; try assumption.
        intros a b Ha Hb. apply C; [right; exact Ha|exact Hb].
      * apply Forall_app. split; [exact F1|].
        apply Forall_forall. intros b Hb. apply C; [left; reflexivity|exact Hb].
Qed.

Lemma StronglySorted_rev {A : Type} (R : A -> A -> Prop) (l : list A) :
  StronglySorted R l -> StronglySorted (fun a b => R b a) (rev l).
Proof.
  induction 1 as [|x l S IH F]; cbn [rev]; [constructor|].
  apply StronglySorted_app. repeat split.
  - exact IH.
  - constructor; constructor.
  - intros a b Ha [<-|[]]. apply in_rev in Ha.
    rewrite Forall_forall in F. apply F, Ha.
Qed.

(** [sorted(..., reverse=True)] is a rearrangement in descending order. *)
Lemma sorted_reverse_spec (l : list process) :
  descending (sorted l true) /\ Permutation (sorted l true) l.
Proof.
  unfold sorted, sort_ascending.
  destruct (sort_ascending_spec (rev l) [] (SSorted_nil _)) as [A P].
  split.
  - apply (StronglySorted_rev _ _ A).
  - rewrite <- Permutation_rev, P. cbn [app]. symmetry. apply Permutation_rev.
Qed.

Lemma collect_readable (iter : list proc_read) :
  collect iter = map process_of_info (readable iter).
Proof.
  unfold collect.
  enough (G : forall acc,
             fold_left
               (fun processes proc =>
                  match proc with
                  | inr info => (processes ++ [process_of_info info])%list
                  | inl _ => processes
                  end) iter acc
             = (acc ++ map process_of_info (readable iter))%list)
    by apply (G []).
  induction iter as [|[e|info] iter IH]; intros acc; cbn [fold_left readable flat_map].
  - rewrite app_nil_r. reflexivity.
  - apply IH.
  - rewrite IH, <- app_assoc. reflexivity.
Qed.

Lemma readable_map_inr (l : list proc_info) : readable (map inr l) = l.
Proof.
  induction l as [|x l IH]; cbn; [reflexivity|]. f_equal. exact IH.
Qed.

Lemma readable_In (iter : list proc_read) (info : proc_info) :
  In (inr info) iter <-> In info (readable iter).
Proof.
  unfold readable. rewrite in_flat_map. split.
  - intros H. exists (inr info). split; [exact H|left; reflexivity].
  - intros ([e|i] & H & K); cbn in K; [contradiction|].
    destruct K as [<-|[]]. exact H.
Qed.

Lemma top_dominates_rest (n : nat) (l : list process) :
  descending l ->
  descending (firstn n l)
  /\ forall p q, In p (firstn n l) -> In q (skipn n l) -> precedes p q.
Proof.
  intros D. unfold descending in *.
  rewrite <- (firstn_skipn n l) in D.
  apply StronglySorted_app in D. destruct D as (D1 & _ & C).
  split; assumption.
Qed.

Lemma StronglySorted_map_inv {A B : Type} (f : A -> B) (R : B -> B -> Prop)
      (l : list A) :
  StronglySorted R (map f l) -> StronglySorted (fun a b => R (f a) (f b)) l.
Proof.
  induction l as [|x l IH]; cbn [map]; intros S; [constructor|].
  apply StronglySorted_inv in S. destruct S as [S F].
  constructor; [apply IH, S|].
  rewrite Forall_map in F. exact F.
Qed.

(** C5. [get_running_processes] returns at most 10 processes, in
    descending order of cpu percent with equal cpu percents ordered by
    descending memory percent; they are the first 10 of the readable
    processes so ordered, and each of them precedes every process left
    out.  The cpu and memory of a returned process are the cpu percent
    and memory percent read for it, so the order is that of the readings:
    the list returned is the image of the first 10 of the readable
    processes ranked by (cpu percent, memory percent), highest first. *)
Theorem top_ten_by_cpu_then_memory (iter : list proc_read) :
  let all := sorted (collect iter) true in
  let result := get_running_processes iter in
  (length result <= 10)%nat
  /\ descending result
  /\ result = firstn 10 all
  /\ descending all
  /\ Permutation all (map process_of_info (readable iter))
  /\ (forall p q : process,
        In p result -> In q (skipn 10 all) -> precedes p q)
  /\ (forall p q : process,
        precedes p q
        <-> (cpu q < cpu p \/ (cpu q == cpu p /\ memory q <= memory p))%Q)
  /\ (forall info : proc_info,
        pid (process_of_info info) = info_pid info
        /\ name (process_of_info info) = info_name info
        /\ cpu (process_of_info info) = info_cpu_percent info
        /\ memory (process_of_info info) = info_memory_percent info)
  /\ (exists ranked : list proc_info,
        Permutation ranked (readable iter)
        /\ StronglySorted
             (fun a b : proc_info =>
                (info_cpu_percent b < info_cpu_percent a
                 \/ (info_cpu_percent b == info_cpu_percent a
                     /\ info_memory_percent b <= info_memory_percent a))%Q)
             ranked
        /\ all = map process_of_info ranked
        /\ result = map process_of_info (firstn 10 ranked)).
Proof.
  cbv zeta. unfold get_running_processes.
  destruct (sorted_reverse_spec (collect iter)) as [D P].
  destruct (top_dominates_rest 10 _ D) as [D10 C].
  split; [apply firstn_le_length|].
  split; [exact D10|].
  split; [reflexivity|].
  split; [exact D|].
  split; [rewrite <- collect_readable; exact P|].
  split; [exact C|].
  split; [intros p q; reflexivity|].
  split; [intros info; repeat split|].
  assert (P' : Permutation (sorted (collect iter) true)
                           (map process_of_info (readable iter)))
    by (rewrite <- collect_readable; exact P).
  destruct (Permutation_map_inv _ _ P') as (ranked & E & Q).
  exists ranked.
  split; [symmetry; exact Q|].
  split.
  - unfold descending in D. rewrite E in D.
    apply StronglySorted_map_inv in D. exact D.
  - split; [exact E|]. rewrite E. apply firstn_map.
Qed.

(** C5 on the sample table: the process of cpu percent 11 is returned, the
    one of cpu percent 1 is left out, and the former precedes the latter. *)
Lemma top_ten_by_cpu_then_memory_witness :
  precedes
    (process_of_info (mk_proc_info 11 "worker" 11 (1 # 2)
                                   ["/usr/bin/worker"; "--serve"; "-v"]))
    (process_of_info (mk_proc_info 1 "worker" 1 (1 # 2)
                                   ["/usr/bin/worker"; "--serve"; "-v"])).
Proof.
  destruct (top_ten_by_cpu_then_memory sample_table)
    as (_ & _ & _ & _ & _ & C & _).
  apply C.
  - vm_compute. left. reflexivity.
  - vm_compute. left. reflexivity.
Defined.

(** ** Processes with a denied attribute *)

Lemma collect_checked_map (iter : list info_dict) :
  collect_checked iter = map entry_of_info_dict iter.
Proof.
  unfold collect_checked.
  enough (G : forall acc,
             fold_left
               (fun processes info =>
                  (processes ++ [entry_of_info_dict info])%list) iter acc
             = (acc ++ map entry_of_info_dict iter)%list)
    by apply (G []).
  induction iter as [|i iter IH]; intros acc; cbn [fold_left map].
  - rewrite app_nil_r. reflexivity.
  - rewrite IH, <- app_assoc. reflexivity.
Qed.

(** Between a denied cpu percent and a granted one the comparison of the
    keys raises. *)
Lemma lt_keys_mixed (x y : entry) :
  cpu_denied x <> cpu_denied y ->
  lt_keys (key_checked x) (key_checked y) = inl TypeError.
Proof.
  unfold cpu_denied, lt_keys, key_checked. cbn [fst snd].
  destruct (entry_cpu x), (entry_cpu y); cbn; intros H;
    try reflexivity; exfalso; apply H; reflexivity.
Qed.

Lemma insert_checked_head (x y : entry) (l r : list entry) :
  insert_checked x (y :: l) = inr r -> cpu_denied x = cpu_denied y.
Proof.
  intros H. destruct (bool_dec (cpu_denied x) (cpu_denied y)) as [E|N];
    [exact E|].
  cbn [insert_checked] in H. rewrite (lt_keys_mixed x y N) in H.
  discriminate H.
Qed.

Lemma insert_checked_elements (x : entry) (l r : list entry) :
  insert_checked x l = inr r ->
  length r = S (length l) /\ forall z : entry, In z r <-> z = x \/ In z l.
Proof.
  revert r. induction l as [|y l IH]; intros r H; cbn [insert_checked] in H.
  - injection H as <-. split; [reflexivity|].
    intros z. cbn [In]. intuition congruence.
  - destruct (lt_keys (key_checked x) (key_checked y)) as [e|[|]];
      [discriminate H| |].
    + injection H as <-. split; [reflexivity|].
      intros z. cbn [In]. intuition congruence.
    + destruct (insert_checked x l) as [e|r'] eqn:E; [discriminate H|].
      injection H as <-. destruct (IH r' eq_refl) as [L I].
      split; [cbn [length]; rewrite L; reflexivity|].
      intros z. cbn [In]. rewrite I. tauto.
Qed.

Lemma sort_ascending_checked_raised (l : list entry) (e : exn) :
  fold_left
    (fun acc x =>
       match acc with
       | inl e => inl e
       | inr sorted_so_far => insert_checked x sorted_so_far
       end) l (inl e)
  = inl e.
Proof. induction l as [|x l IH]; [reflexivity|exact IH]. Qed.

(** A sort that returns has met entries of one kind only: all with the
    cpu percent denied, or all with it granted. *)
Lemma sort_ascending_checked_one_kind (l acc r : list entry) (c : bool) :
  acc <> [] ->
  Forall (fun a => cpu_denied a = c) acc ->
  fold_left
    (fun acc x =>
       match acc with
       | inl e => inl e
       | inr sorted_so_far => insert_checked x sorted_so_far
       end) l (inr acc)
  = inr r ->
  Forall (fun a => cpu_denied a = c) l.
Proof.
  revert acc. induction l as [|x l IH]; intros acc N F H; [constructor|].
  cbn [fold_left] in H.
  destruct (insert_checked x acc) as [e|acc'] eqn:E.
  - rewrite sort_ascending_checked_raised in H. discriminate H.
  - destruct acc as [|y acc]; [contradiction N; reflexivity|].
    pose proof (insert_checked_head x y acc acc' E) as K.
    destruct (insert_checked_elements x (y :: acc) acc' E) as [L I].
    assert (C : cpu_denied x = c).
    { rewrite K. rewrite Forall_forall in F. apply F. left. reflexivity. }
    constructor; [exact C|].
    apply (IH acc'); [| |exact H].
    + intros Z. rewrite Z in L. discriminate L.
    + apply Forall_forall. intros z Hz. apply I in Hz.
      destruct Hz as [->|Hz]; [exact C|].
      rewrite Forall_forall in F. apply F, Hz.
Qed.

Lemma sorted_checked_one_kind (l r : list entry) (a b : entry) :
  sorted_checked l true = inr r ->
  In a l -> In b l -> cpu_denied a = cpu_denied b.
Proof.
  unfold sorted_checked, sort_ascending_checked.
  intros H Ha Hb. apply in_rev in Ha. apply in_rev in Hb.
  destruct (rev l) as [|x m]; [destruct Ha|].
  cbn [fold_left insert_checked] in H.
  destruct (fold_left _ m (inr [x])) as [e|r'] eqn:E; [discriminate H|].
  assert (F : Forall (fun z => cpu_denied z = cpu_denied x) m).
  { apply (sort_ascending_checked_one_kind m [x] r');
      [discriminate|repeat constructor|exact E]. }
  rewrite Forall_forall in F.
  assert (G : forall z, In z (x :: m) -> cpu_denied z = cpu_denied x).
  { intros z [<-|Hz]; [reflexivity|apply F, Hz]. }
  rewrite (G a Ha), (G b Hb). reflexivity.
Qed.

(** C6, on the enumeration as [psutil.process_iter] yields it. A process
    with a denied attribute is not skipped: its dict holds [None] for that
    attribute and the loop appends it like any other.  When the cpu
    percent of one process was denied and that of another was granted,
    the sort compares [None] with a number and [get_running_processes]
    raises TypeError: the whole call fails for one process. *)
Theorem denied_process_makes_ranking_raise
        (iter : list info_dict) (a b : info_dict) :
  In a iter -> In b iter ->
  dict_cpu_percent a = None -> dict_cpu_percent b <> None ->
  In (entry_of_info_dict a) (collect_checked iter)
  /\ get_running_processes_checked iter = inl TypeError.
Proof.
  intros Ha Hb Na Nb.
  assert (Ia : In (entry_of_info_dict a) (collect_checked iter))
    by (rewrite collect_checked_map; apply in_map, Ha).
  assert (Ib : In (entry_of_info_dict b) (collect_checked iter))
    by (rewrite collect_checked_map; apply in_map, Hb).
  split; [exact Ia|].
  unfold get_running_processes_checked.
  destruct (sorted_checked (collect_checked iter) true) as [[]|r] eqn:E;
    [reflexivity|].
  pose proof (sorted_checked_one_kind _ r _ _ E Ia Ib) as K.
  unfold cpu_denied, entry_of_info_dict in K. cbn [entry_cpu] in K.
  rewrite Na in K. destruct (dict_cpu_percent b); [discriminate K|].
  contradiction Nb. reflexivity.
Qed.

(** C6 on two processes, the first with its cpu percent and command line
    denied. *)
Lemma denied_process_makes_ranking_raise_witness :
  get_running_processes_checked
    [mk_info_dict 1 (Some "systemd") None (Some (1 # 10)) None;
     mk_info_dict 4242 (Some "python3") (Some (1 # 1)) (Some (1 # 2))
                  (Some ["python3"; "system_monitor.py"])]
  = inl TypeError.
Proof.
  match goal with
  | |- get_running_processes_checked [?a; ?b] = _ =>
      destruct (denied_process_makes_ranking_raise [a; b] a b) as [_ H]
  end.
  - left. reflexivity.
  - right. left. reflexivity.
  - reflexivity.
  - discriminate.
  - exact H.
Defined.

(** ** The log file *)

Lemma line_ends_append (a b : string) :
  line_ends (a ++ b) = (line_ends a + line_ends b)%nat.
Proof.
  induction a as [|c a IH]; cbn [String.append line_ends]; [reflexivity|].
  rewrite IH. lia.
Qed.

Lemma line_ends_uint (u : Decimal.uint) :
  line_ends (NilEmpty.string_of_uint u) = 0%nat.
Proof. induction u; cbn; auto. Qed.

Lemma line_ends_decimal (n : Z) : line_ends (decimal n) = 0%nat.
Proof. apply line_ends_uint. Qed.

Lemma line_ends_pad2 (n : Z) : line_ends (pad2 n) = 0%nat.
Proof.
  unfold pad2. destruct (n <? 10);
    rewrite ?line_ends_append, line_ends_decimal; reflexivity.
Qed.

Lemma line_ends_strftime (t : datetime) : line_ends (strftime t) = 0%nat.
Proof.
  unfold strftime.
  rewrite !line_ends_append, !line_ends_pad2, line_ends_decimal. reflexivity.
Qed.

Lemma line_ends_format_2f (num : Q) : line_ends (format_2f num) = 0%nat.
Proof.
  unfold format_2f. cbv zeta.
  rewrite !line_ends_append, !line_ends_decimal.
  destruct (Qnum num <? 0); reflexivity.
Qed.

Lemma line_ends_convert_bytes (num : Q) : line_ends (_convert_bytes num) = 0%nat.
Proof.
  unfold _convert_bytes, units. cbn [convert_loop].
  repeat match goal with
         | |- context [if ?b then _ else _] => destruct b
         end;
    rewrite !line_ends_append, line_ends_format_2f; reflexivity.
Qed.

Lemma ends_with_append (c : ascii) (a b : string) :
  ends_with c b = true -> ends_with c (a ++ b) = true.
Proof.
  intros H. induction a as [|x a IH]; cbn [String.append]; [exact H|].
  cbn [ends_with]. rewrite IH.
  destruct (a ++ b) eqn:E; [|reflexivity].
  rewrite <- E in IH. rewrite E in IH. discriminate IH.
Qed.

Lemma has_shape_append (p1 p2 : list shape) (s1 s2 : string) :
  has_shape p1 s1 = true -> has_shape p2 s2 = true ->
  has_shape (p1 ++ p2) (s1 ++ s2) = true.
Proof.
  revert s1. induction p1 as [|x p1 IH]; intros s1 H1 H2.
  - destruct s1; [exact H2|discriminate H1].
  - destruct s1 as [|c s1]; [destruct x; discriminate H1|].
    cbn [app String.append has_shape] in *.
    destruct x; apply andb_true_iff in H1; destruct H1 as [H0 H1];
      rewrite H0, (IH s1 H1 H2); reflexivity.
Qed.

(** Checking a property of [decimal] and [pad2] on a range of numbers. *)
Lemma on_range (lo n : Z) (P : Z -> bool) :
  forallb P (map (fun i => lo + Z.of_nat i) (seq 0 (Z.to_nat n))) = true ->
  forall z : Z, lo <= z < lo + n -> P z = true.
Proof.
  intros H z B. rewrite forallb_forall in H. apply H.
  apply in_map_iff. exists (Z.to_nat (z - lo)). split; [lia|].
  apply in_seq. lia.
Qed.

Lemma four_digit_year (y : Z) :
  1000 <= y <= 9999 ->
  has_shape [Digit; Digit; Digit; Digit] (decimal y) = true.
Proof.
  intros H.
  apply (on_range 1000 9000
           (fun z => has_shape [Digit; Digit; Digit; Digit] (decimal z)));
    [vm_compute; reflexivity|lia].
Qed.

Lemma two_digit_field (n : Z) :
  0 <= n <= 99 -> has_shape [Digit; Digit] (pad2 n) = true.
Proof.
  intros H.
  apply (on_range 0 100 (fun z => has_shape [Digit; Digit] (pad2 z)));
    [vm_compute; reflexivity|lia].
Qed.

Lemma strftime_shape (t : datetime) :
  calendar t -> has_shape timestamp_shape (strftime t) = true.
Proof.
  intros (Y & Mo & D & H & Mi & S). unfold strftime.
  change timestamp_shape with
    ([Digit; Digit; Digit; Digit] ++ [Char "-"] ++ [Digit; Digit]
       ++ [Char "-"] ++ [Digit; Digit] ++ [Char " "] ++ [Digit; Digit]
       ++ [Char ":"] ++ [Digit; Digit] ++ [Char ":"] ++ [Digit; Digit])%list.
  repeat first
         [ apply two_digit_field; lia
         | apply has_shape_append;
           [first [apply four_digit_year; lia
                  |apply two_digit_field; lia
                  |reflexivity]|] ].
Qed.

Section Log.

Variable float_str : Q -> string.

Lemma log_performance_appends (now : datetime) (self : Monitor) (st : stats)
      (fs : filesystem) :
  log_performance float_str now self st fs (log_file self)
  = Some (contents fs (log_file self) ++ log_line float_str (strftime now) st)
  /\ forall p : string,
       p <> log_file self ->
       log_performance float_str now self st fs p = fs p.
Proof.
  unfold log_performance, open_append, file_write, file_close, contents.
  cbn [file_name pending String.append].
  rewrite String.eqb_refl. split; [reflexivity|].
  intros p H. apply String.eqb_neq in H. rewrite H. reflexivity.
Qed.

Lemma get_system_stats_log (os : OS) (self : Monitor) (fs : filesystem) :
  snd (fst (get_system_stats float_str os self fs))
  = log_performance float_str (datetime_now os)
      (fst (fst (get_system_stats float_str os self fs)))
      (snd (get_system_stats float_str os self fs)) fs.
Proof. reflexivity. Qed.

Lemma get_system_stats_log_file (os : OS) (self : Monitor) (fs : filesystem) :
  log_file (fst (fst (get_system_stats float_str os self fs))) = log_file self.
Proof.
  unfold get_system_stats, get_disk_activity. cbv zeta. cbn [fst snd].
  match goal with |- context [if ?b then _ else _] => destruct b end;
    reflexivity.
Qed.

Lemma line_ends_log_line (ts : string) (st : stats) :
  line_ends (log_line float_str ts st)
  = (line_ends ts + line_ends (float_str (stats_cpu st))
     + line_ends (float_str (stats_memory st))
     + line_ends (read (stats_disk_activity st))
     + line_ends (write (stats_disk_activity st))
     + line_ends (sent (stats_network st))
     + line_ends (received (stats_network st)) + 1)%nat.
Proof.
  unfold log_line. rewrite !line_ends_append.
  cbn [line_ends newline Ascii.eqb Bool.eqb ascii_of_nat]. cbn. lia.
Qed.

End Log.

(** C8. A call of [log_performance] leaves the log file holding what it
    held followed by one record, and every other file as it was; the file
    object does not outlive the call, so nothing written stays pending.
    For the statistics of [get_system_stats] the record reads
    [[<timestamp>] CPU: <v>%, Memory: <v>%, Disk Read: <v>/s, Disk Write:
    <v>/s, Network Sent: <v>/s, Network Received: <v>/s] and a line end.
    The timestamp of a calendar date has the shape
    [YYYY-MM-DD HH:MM:SS].  When the two percentages print without a line
    end, the record has exactly one line end, its last character. *)
Theorem log_performance_appends_one_line (float_str : Q -> string) :
  (forall (now : datetime) (self : Monitor) (st : stats) (fs : filesystem),
      log_performance float_str now self st fs (log_file self)
      = Some (contents fs (log_file self)
                ++ log_line float_str (strftime now) st)
      /\ forall p : string,
           p <> log_file self ->
           log_performance float_str now self st fs p = fs p)
  /\ (forall (os : OS) (self : Monitor) (fs : filesystem),
        let fs' := snd (fst (get_system_stats float_str os self fs)) in
        let st := snd (get_system_stats float_str os self fs) in
        fs' (log_file self)
        = Some (contents fs (log_file self)
                  ++ log_line float_str (strftime (datetime_now os)) st)
        /\ (forall p : string, p <> log_file self -> fs' p = fs p)
        /\ log_line float_str (strftime (datetime_now os)) st
           = "[" ++ strftime (datetime_now os)
               ++ "] CPU: " ++ float_str (cpu_percent os)
               ++ "%, Memory: " ++ float_str (virtual_memory_percent os)
               ++ "%, Disk Read: "
               ++ _convert_bytes (inject_Z (disk_read_delta os self))
               ++ "/s, Disk Write: "
               ++ _convert_bytes (inject_Z (disk_write_delta os self))
               ++ "/s, Network Sent: "
               ++ _convert_bytes (inject_Z (net_sent_delta os self))
               ++ "/s, Network Received: "
               ++ _convert_bytes (inject_Z (net_recv_delta os self))
               ++ "/s" ++ newline
        /\ ends_with (ascii_of_nat 10)
                     (log_line float_str (strftime (datetime_now os)) st)
           = true
        /\ (line_ends (float_str (cpu_percent os)) = 0%nat ->
            line_ends (float_str (virtual_memory_percent os)) = 0%nat ->
            line_ends (log_line float_str (strftime (datetime_now os)) st)
            = 1%nat))
  /\ (forall now : datetime,
        calendar now -> has_shape timestamp_shape (strftime now) = true).
Proof.
  split; [apply log_performance_appends|].
  split; [|exact strftime_shape].
  intros os self fs. cbv zeta.
  rewrite get_system_stats_log.
  rewrite <- (get_system_stats_log_file float_str os self fs).
  destruct (log_performance_appends float_str (datetime_now os)
              (fst (fst (get_system_stats float_str os self fs)))
              (snd (get_system_stats float_str os self fs)) fs) as [A O].
  split; [exact A|]. split; [exact O|].
  rewrite get_system_stats_report.
  split; [|split].
  - unfold log_line.
    cbn [stats_cpu stats_memory stats_disk_activity stats_network
         read write sent received].
    rewrite !append_assoc. reflexivity.
  - unfold log_line. repeat apply ends_with_append. reflexivity.
  - intros C M. rewrite line_ends_log_line.
    cbn [stats_cpu stats_memory stats_disk_activity stats_network
         read write sent received].
    rewrite C, M, line_ends_strftime, !line_ends_append,
      !line_ends_convert_bytes.
    reflexivity.
Qed.

(** C8 on the sample answers, the percentages printed with two decimals. *)
Lemma log_performance_appends_one_line_witness :
  let os := sample_os (mk_disk_io 2048 0) (mk_net_io 1536 0) 1700000000 [] in
  let self := __init__ (mk_net_io 0 0) (mk_disk_io 0 0) in
  has_shape timestamp_shape (strftime (datetime_now os)) = true
  /\ line_ends
       (log_line format_2f (strftime (datetime_now os))
                 (snd (get_system_stats format_2f os self (fun _ => None))))
     = 1%nat
  /\ log_performance format_2f (datetime_now os) self
       (snd (get_system_stats format_2f os self (fun _ => None)))
       (fun _ => None) "other.log"
     = None.
Proof.
  cbv zeta.
  destruct (log_performance_appends_one_line format_2f) as (A & B & C).
  split; [|split].
  - apply C. vm_compute. repeat split; discriminate.
  - apply B; reflexivity.
  - destruct (A (mk_datetime 2024 3 7 9 5 0)
                (__init__ (mk_net_io 0 0) (mk_disk_io 0 0))
                (snd (get_system_stats format_2f
                        (sample_os (mk_disk_io 2048 0) (mk_net_io 1536 0)
                                   1700000000 [])
                        (__init__ (mk_net_io 0 0) (mk_disk_io 0 0))
                        (fun _ => None)))
                (fun _ => None)) as [_ O].
    apply O. discriminate.
Defined.

(** * Further properties *)

(** ** The sort is stable and leaves a ranked list as it is *)

Lemma tuple_lt_true_iff (a b : Q * Q) :
  tuple_lt a b = true
  <-> (fst a < fst b \/ (fst a == fst b /\ snd a < snd b))%Q.
Proof.
  unfold tuple_lt. destruct (Qeq_bool (fst a) (fst b)) eqn:E.
  - apply Qeq_bool_iff in E. rewrite Qlt_bool_iff. split.
    + intros H. right. split; assumption.
    + intros [H|[_ H]]; [lra|exact H].
  - apply Qeq_bool_neq in E. rewrite Qlt_bool_iff. split.
    + intros H. left. exact H.
    + intros [H|[H _]]; [exact H|contradiction].
Qed.

Lemma insert_last (x : process) (l : list process) :
  (forall y, In y l -> precedes x y) -> insert x l = (l ++ [x])%list.
Proof.
  induction l as [|y l IH]; intros H; cbn [insert app]; [reflexivity|].
  assert (E : tuple_lt (key x) (key y) = false)
    by (apply tuple_lt_precedes, H; left; reflexivity).
  rewrite E, IH; [reflexivity|].
  intros z Hz. apply H. right. exact Hz.
Qed.

Lemma sort_ascending_fixed (l acc : list process) :
  ascending (acc ++ l) ->
  fold_left (fun acc x => insert x acc) l acc = (acc ++ l)%list.
Proof.
  revert acc. induction l as [|x l IH]; intros acc A; cbn [fold_left].
  - rewrite app_nil_r. reflexivity.
  - rewrite insert_last.
    + rewrite IH; rewrite <- app_assoc; [reflexivity|exact A].
    + intros y Hy. unfold ascending in A.
      apply StronglySorted_app in A. destruct A as (_ & _ & C).
      apply (C y x Hy). left. reflexivity.
Qed.

Lemma sorted_fixed (l : list process) : descending l -> sorted l true = l.
Proof.
  intros D. unfold sorted, sort_ascending.
  rewrite sort_ascending_fixed.
  - cbn [app]. apply rev_involutive.
  - cbn [app]. apply (StronglySorted_rev _ _ D).
Qed.

Lemma same_key_above (k : Q * Q) (x z : process) :
  tuple_lt (key x) (key z) = true -> same_key k x = true ->
  same_key k z = false.
Proof.
  unfold same_key, key. intros L S.
  apply tuple_lt_true_iff in L. cbn [fst snd] in L.
  apply andb_true_iff in S. destruct S as [S1 S2].
  apply Qeq_bool_iff in S1. apply Qeq_bool_iff in S2.
  apply andb_false_iff.
  destruct (Qeq_bool (cpu z) (fst k)) eqn:E1; [|left; reflexivity].
  destruct (Qeq_bool (memory z) (snd k)) eqn:E2; [|right; reflexivity].
  apply Qeq_bool_iff in E1. apply Qeq_bool_iff in E2. lra.
Qed.

Lemma tuple_lt_le_trans (x y z : process) :
  tuple_lt (key x) (key y) = true -> precedes z y ->
  tuple_lt (key x) (key z) = true.
Proof.
  intros L P. apply tuple_lt_true_iff in L. apply tuple_lt_true_iff.
  unfold precedes in P. unfold key in *. cbn [fst snd] in *.
  destruct L as [L|[L1 L2]], P as [P|[P1 P2]]; lra.
Qed.

Lemma filter_insert (k : Q * Q) (x : process) (l : list process) :
  ascending l ->
  filter (same_key k) (insert x l)
  = (filter (same_key k) l ++ (if same_key k x then [x] else []))%list.
Proof.
  unfold ascending.
  induction l as [|y l IH]; intros A; cbn [insert].
  - cbn [filter app]. destruct (same_key k x); reflexivity.
  - apply StronglySorted_inv in A. destruct A as [A F].
    destruct (tuple_lt (key x) (key y)) eqn:E.
    + cbn [filter]. destruct (same_key k x) eqn:S;
        [|rewrite app_nil_r; reflexivity].
      assert (N : forall z, In z (y :: l) -> same_key k z = false).
      { intros z [<-|Hz]; [exact (same_key_above k x y E S)|].
        apply (same_key_above k x z); [|exact S].
        apply (tuple_lt_le_trans x y z E).
        rewrite Forall_forall in F. apply F, Hz. }
      assert (G : filter (same_key k) (y :: l) = []).
      { clear -N. induction (y :: l) as [|z m IHm]; [reflexivity|].
        cbn [filter]. rewrite (N z (or_introl eq_refl)).
        apply IHm. intros w Hw. apply N. right. exact Hw. }
      cbn [filter] in G. rewrite G. reflexivity.
    + cbn [filter]. rewrite (IH A).
      destruct (same_key k y); reflexivity.
Qed.

Lemma filter_sort_ascending (k : Q * Q) (l acc : list process) :
  ascending acc ->
  filter (same_key k) (fold_left (fun acc x => insert x acc) l acc)
  = (filter (same_key k) acc ++ filter (same_key k) l)%list.
Proof.
  revert acc. induction l as [|x l IH]; intros acc A; cbn [fold_left].
  - cbn [filter]. rewrite app_nil_r. reflexivity.
  - rewrite (IH _ (insert_ascending x acc A)), (filter_insert k x acc A).
    cbn [filter]. rewrite <- app_assoc.
    destruct (same_key k x); reflexivity.
Qed.

Lemma filter_rev' {A : Type} (f : A -> bool) (l : list A) :
  filter f (rev l) = rev (filter f l).
Proof.
  induction l as [|x l IH]; [reflexivity|].
  cbn [rev filter]. rewrite filter_app, IH. cbn [filter].
  destruct (f x); cbn [rev]; [reflexivity|apply app_nil_r].
Qed.

Lemma filter_sorted (k : Q * Q) (l : list process) :
  filter (same_key k) (sorted l true) = filter (same_key k) l.
Proof.
  unfold sorted, sort_ascending.
  rewrite filter_rev', (filter_sort_ascending k (rev l) [] (SSorted_nil _)).
  cbn [filter app]. rewrite filter_rev'. apply rev_involutive.
Qed.

(** X1. Processes whose cpu percent and memory percent are both equal
    keep the order in which they were enumerated: in the ranked list, and
    so, as far as they fit, in the list returned. *)
Theorem equal_keys_keep_enumeration_order (iter : list proc_read) (k : Q * Q) :
  filter (same_key k) (sorted (collect iter) true)
  = filter (same_key k) (collect iter)
  /\ exists rest : list process,
       filter (same_key k) (collect iter)
       = (filter (same_key k) (get_running_processes iter) ++ rest)%list.
Proof.
  split; [apply filter_sorted|].
  exists (filter (same_key k) (skipn 10 (sorted (collect iter) true))).
  unfold get_running_processes.
  rewrite <- filter_app, firstn_skipn. symmetry. apply filter_sorted.
Qed.

(** X2. Ranking a ranked list changes nothing: sorting twice is sorting
    once, and the list returned by [get_running_processes], ranked and
    cut again, is itself. *)
Theorem ranking_is_idempotent (l : list process) (iter : list proc_read) :
  sorted (sorted l true) true = sorted l true
  /\ firstn 10 (sorted (get_running_processes iter) true)
     = get_running_processes iter.
Proof.
  split.
  - apply sorted_fixed, sorted_reverse_spec.
  - unfold get_running_processes.
    destruct (sorted_reverse_spec (collect iter)) as [D _].
    destruct (top_dominates_rest 10 _ D) as [D10 _].
    rewrite (sorted_fixed _ D10). apply firstn_firstn.
Qed.

(** ** The enumeration as psutil yields it *)

Lemma Qlt_bool_irrefl (x y : Q) : Qeq_bool x y = true -> Qlt_bool x y = false.
Proof.
  intros E. apply Qeq_bool_iff in E. apply Qlt_bool_false_iff.
  rewrite E. apply Qle_refl.
Qed.

Lemma lt_keys_granted (x y : process) :
  lt_keys (key_checked (entry_of_process x)) (key_checked (entry_of_process y))
  = inr (tuple_lt (key x) (key y)).
Proof.
  unfold lt_keys, key_checked, tuple_lt, key, entry_of_process.
  cbn [entry_cpu entry_memory fst snd eq_value lt_value].
  destruct (Qeq_bool (cpu x) (cpu y)); [|reflexivity].
  destruct (Qeq_bool (memory x) (memory y)) eqn:M; [|reflexivity].
  rewrite (Qlt_bool_irrefl _ _ M). reflexivity.
Qed.

Lemma insert_checked_granted (x : process) (l : list process) :
  insert_checked (entry_of_process x) (map entry_of_process l)
  = inr (map entry_of_process (insert x l)).
Proof.
  induction l as [|y l IH]; [reflexivity|].
  cbn [map insert_checked insert]. rewrite lt_keys_granted.
  destruct (tuple_lt (key x) (key y)); [reflexivity|].
  rewrite IH. reflexivity.
Qed.

Lemma sorted_checked_granted (l : list process) :
  sorted_checked (map entry_of_process l) true
  = inr (map entry_of_process (sorted l true)).
Proof.
  unfold sorted_checked, sorted, sort_ascending_checked, sort_ascending.
  rewrite <- map_rev.
  enough (G : forall m acc,
             fold_left
               (fun acc x =>
                  match acc with
                  | inl e => inl e
                  | inr sorted_so_far => insert_checked x sorted_so_far
                  end) (map entry_of_process m)
               (inr (map entry_of_process acc))
             = inr (map entry_of_process
                        (fold_left (fun acc x => insert x acc) m acc))).
  { pose proof (G (rev l) []) as G'.
    change (map entry_of_process []) with (@nil entry) in G'.
    rewrite G', map_rev. reflexivity. }
  induction m as [|x m IH]; intros acc; cbn [map fold_left]; [reflexivity|].
  rewrite insert_checked_granted. apply IH.
Qed.

Lemma entry_of_granted (info : proc_info) :
  entry_of_info_dict (granted info) = entry_of_process (process_of_info info).
Proof.
  unfold entry_of_info_dict, granted, entry_of_process, process_of_info.
  cbn. destruct (info_cmdline info); reflexivity.
Qed.

(** On an enumeration whose attributes were all granted, the call on what
    psutil yields returns, and returns what [get_running_processes] gives
    for the same processes. *)
Lemma get_running_processes_checked_granted (infos : list proc_info) :
  get_running_processes_checked (map granted infos)
  = inr (map entry_of_process (get_running_processes (map inr infos))).
Proof.
  unfold get_running_processes_checked, get_running_processes.
  rewrite collect_checked_map, collect_readable, readable_map_inr, map_map.
  rewrite (map_ext _ _ entry_of_granted), <- map_map.
  rewrite sorted_checked_granted, firstn_map. reflexivity.
Qed.

Lemma lt_keys_numbers (x y : entry) :
  entry_cpu x <> None -> entry_memory x <> None ->
  entry_cpu y <> None -> entry_memory y <> None ->
  exists b : bool, lt_keys (key_checked x) (key_checked y) = inr b.
Proof.
  unfold lt_keys, key_checked. cbn [fst snd].
  destruct (entry_cpu x), (entry_memory x), (entry_cpu y), (entry_memory y);
    intros; try contradiction; cbn [eq_value lt_value].
  repeat match goal with |- context [if ?c then _ else _] => destruct c end;
    eexists; reflexivity.
Qed.

Lemma insert_checked_numbers (x : entry) (l : list entry) :
  (entry_cpu x <> None /\ entry_memory x <> None) ->
  Forall (fun y => entry_cpu y <> None /\ entry_memory y <> None) l ->
  exists r : list entry, insert_checked x l = inr r.
Proof.
  intros [C M]. induction 1 as [|y l [Cy My] _ IH]; cbn [insert_checked].
  - eexists; reflexivity.
  - destruct (lt_keys_numbers x y C M Cy My) as [[|] ->].
    + eexists; reflexivity.
    + destruct IH as [r ->]. eexists; reflexivity.
Qed.

Lemma sort_ascending_checked_numbers (l acc : list entry) :
  Forall (fun y => entry_cpu y <> None /\ entry_memory y <> None) acc ->
  Forall (fun y => entry_cpu y <> None /\ entry_memory y <> None) l ->
  exists r : list entry,
    fold_left
      (fun acc x =>
         match acc with
         | inl e => inl e
         | inr sorted_so_far => insert_checked x sorted_so_far
         end) l (inr acc)
    = inr r.
Proof.
  intros A L. revert acc A.
  induction L as [|x l X _ IH]; intros acc A; cbn [fold_left].
  - eexists; reflexivity.
  - destruct (insert_checked_numbers x acc X A) as [acc' E]. rewrite E.
    apply IH. apply Forall_forall. intros z Hz.
    apply (insert_checked_elements x acc acc' E) in Hz.
    destruct Hz as [->|Hz]; [exact X|].
    rewrite Forall_forall in A. apply A, Hz.
Qed.

Lemma sort_ascending_checked_elements (l acc r : list entry) :
  fold_left
    (fun acc x =>
       match acc with
       | inl e => inl e
       | inr sorted_so_far => insert_checked x sorted_so_far
       end) l (inr acc)
  = inr r ->
  length r = (length acc + length l)%nat
  /\ forall z : entry, In z r <-> In z acc \/ In z l.
Proof.
  revert acc. induction l as [|x l IH]; intros acc H; cbn [fold_left] in H.
  - injection H as <-. split; [cbn [length]; lia|].
    intros z. cbn [In]. tauto.
  - destruct (insert_checked x acc) as [e|acc'] eqn:E.
    + rewrite sort_ascending_checked_raised in H. discriminate H.
    + destruct (insert_checked_elements x acc acc' E) as [L I].
      destruct (IH acc' H) as [L' I'].
      split; [rewrite L', L; cbn [length]; lia|].
      intros z. rewrite I', I. cbn [In]. intuition congruence.
Qed.

Lemma sorted_checked_elements (l r : list entry) :
  sorted_checked l true = inr r ->
  length r = length l /\ forall z : entry, In z r <-> In z l.
Proof.
  unfold sorted_checked, sort_ascending_checked. intros H.
  destruct (fold_left _ (rev l) (inr [])) as [e|r'] eqn:E; [discriminate H|].
  injection H as <-.
  destruct (sort_ascending_checked_elements (rev l) [] r' E) as [L I].
  rewrite length_rev in *. cbn [length] in L.
  split; [exact L|].
  intros z. rewrite <- in_rev, I, <- in_rev. cbn [In]. tauto.
Qed.

(** X3. On the enumeration as [psutil.process_iter] yields it, no process
    is skipped.  When the cpu and memory percent of every process were
    granted, [get_running_processes] returns; and whenever it returns, it
    returns min(10, number of processes enumerated) entries, each the
    entry of an enumerated process (a denied name or command line
    included, as [None]), all of them when at most 10 were enumerated, and
    none only when none was enumerated. *)
Theorem every_enumerated_process_is_ranked (iter : list info_dict) :
  (Forall percentages_granted iter ->
   exists r : list entry, get_running_processes_checked iter = inr r)
  /\ (forall r : list entry,
        get_running_processes_checked iter = inr r ->
        length r = Nat.min 10 (length iter)
        /\ (r = [] <-> iter = [])
        /\ (forall x : entry,
              In x r ->
              exists info : info_dict,
                In info iter /\ x = entry_of_info_dict info)
        /\ ((length iter <= 10)%nat ->
            forall info : info_dict,
              In info iter -> In (entry_of_info_dict info) r)).
Proof.
  unfold get_running_processes_checked. rewrite collect_checked_map. split.
  - intros G. unfold sorted_checked, sort_ascending_checked.
    destruct (sort_ascending_checked_numbers
                (rev (map entry_of_info_dict iter)) []) as [r E].
    + constructor.
    + apply Forall_rev, Forall_map. eapply Forall_impl; [|exact G].
      intros info [C M]. split; assumption.
    + rewrite E. eexists; reflexivity.
  - intros r H.
    destruct (sorted_checked (map entry_of_info_dict iter) true)
      as [e|s] eqn:E; [discriminate H|].
    remember (firstn 10 s) as t eqn:T. injection H as <-. subst t.
    destruct (sorted_checked_elements _ s E) as [L I].
    rewrite length_map in L.
    assert (Len : length (firstn 10 s) = Nat.min 10 (length iter))
      by (rewrite length_firstn, L; reflexivity).
    split; [exact Len|]. split; [|split].
    + split; intros Z.
      * rewrite Z in Len. cbn [length] in Len.
        destruct iter; [reflexivity|cbn [length] in Len; lia].
      * rewrite Z in Len. cbn [length] in Len.
        destruct (firstn 10 s); [reflexivity|discriminate Len].
    + intros x Hx.
      assert (Hs : In x s).
      { rewrite <- (firstn_skipn 10 s). apply in_or_app. left. exact Hx. }
      apply I, in_map_iff in Hs. destruct Hs as (info & <- & Hi).
      exists info. split; [exact Hi|reflexivity].
    + intros B info Hi. rewrite firstn_all2 by lia.
      apply I, in_map, Hi.
Qed.

(** X3 on two processes, the name and command line of the first denied. *)
Lemma every_enumerated_process_is_ranked_witness :
  exists r : list entry,
    get_running_processes_checked
      [mk_info_dict 1 None (Some (0 # 1)) (Some (1 # 10)) None;
       mk_info_dict 4242 (Some "python3") (Some (1 # 1)) (Some (1 # 2))
                    (Some ["python3"; "system_monitor.py"])]
    = inr r.
Proof.
  match goal with
  | |- exists r, get_running_processes_checked ?t = _ =>
      destruct (every_enumerated_process_is_ranked t) as [T _]
  end.
  apply T. repeat constructor; discriminate.
Defined.

(** ** Readings and histories along a run *)

Section Along_a_run.

Variable float_str : Q -> string.

(** After a call the readings kept for the next call are those of this
    call. *)
Lemma get_system_stats_last (os : OS) (self : Monitor) (fs : filesystem) :
  last_disk_io (fst (fst (get_system_stats float_str os self fs)))
  = disk_io_counters os
  /\ last_network_stats (fst (fst (get_system_stats float_str os self fs)))
     = net_io_counters os.
Proof.
  unfold get_system_stats, get_disk_activity. cbv zeta. cbn [fst snd].
  match goal with |- context [if ?b then _ else _] => destruct b end;
    split; reflexivity.
Qed.

Lemma ticks_cons (os : OS) (oss : list OS) (self : Monitor) (fs : filesystem) :
  ticks float_str (os :: oss) self fs
  = ticks float_str oss
      (fst (fst (get_system_stats float_str os self fs)))
      (snd (fst (get_system_stats float_str os self fs))).
Proof.
  unfold ticks. cbn [fold_left fst snd].
  rewrite <- surjective_pairing. reflexivity.
Qed.

Lemma histories_ticks (oss : list OS) (self : Monitor) (fs : filesystem) :
  histories (fst (ticks float_str oss self fs))
  = [pushes (cpu_history self) (map cpu_percent oss);
     pushes (mem_history self) (map virtual_memory_percent oss);
     pushes (disk_read_history self)
       (map kilobytes
          (differences (read_bytes (last_disk_io self))
             (map (fun os => read_bytes (disk_io_counters os)) oss)));
     pushes (disk_write_history self)
       (map kilobytes
          (differences (write_bytes (last_disk_io self))
             (map (fun os => write_bytes (disk_io_counters os)) oss)));
     pushes (network_send_history self)
       (map kilobytes
          (differences (bytes_sent (last_network_stats self))
             (map (fun os => bytes_sent (net_io_counters os)) oss)));
     pushes (network_recv_history self)
       (map kilobytes
          (differences (bytes_recv (last_network_stats self))
             (map (fun os => bytes_recv (net_io_counters os)) oss)))].
Proof.
  revert self fs. induction oss as [|os oss IH]; intros self fs.
  - reflexivity.
  - rewrite ticks_cons, IH.
    destruct (get_system_stats_last os self fs) as [D N]. rewrite D, N.
    pose proof (get_system_stats_histories float_str os self fs) as H.
    unfold histories, samples in H. cbn [combine map fst snd] in H.
    remember (fst (fst (get_system_stats float_str os self fs))) as self1.
    injection H as H1 H2 H3 H4 H5 H6.
    rewrite H1, H2, H3, H4, H5, H6. reflexivity.
Qed.

End Along_a_run.

(** X4. A call keeps its counter readings as the previous readings of the
    next call.  So when the counters have not moved between two calls, the
    second call reports [0.00 B/s] for the four counters and pushes zero
    to the four rate buffers. *)
Theorem unchanged_counters_report_zero
        (float_str : Q -> string) (os os' : OS) (self : Monitor)
        (fs : filesystem) :
  disk_io_counters os' = disk_io_counters os ->
  net_io_counters os' = net_io_counters os ->
  let self1 := fst (fst (get_system_stats float_str os self fs)) in
  let fs1 := snd (fst (get_system_stats float_str os self fs)) in
  last_disk_io self1 = disk_io_counters os
  /\ last_network_stats self1 = net_io_counters os
  /\ stats_disk_activity (snd (get_system_stats float_str os' self1 fs1))
     = {| read := "0.00 B/s"; write := "0.00 B/s" |}
  /\ stats_network (snd (get_system_stats float_str os' self1 fs1))
     = {| sent := "0.00 B/s"; received := "0.00 B/s" |}
  /\ samples os' self1
     = [cpu_percent os'; virtual_memory_percent os';
        kilobytes 0; kilobytes 0; kilobytes 0; kilobytes 0].
Proof.
  intros D N. cbv zeta.
  destruct (get_system_stats_last float_str os self fs) as [LD LN].
  split; [exact LD|]. split; [exact LN|].
  rewrite get_system_stats_report.
  unfold samples, disk_read_delta, disk_write_delta, net_sent_delta,
    net_recv_delta.
  rewrite LD, LN, D, N, !Z.sub_diag.
  repeat split.
Qed.

(** X4 on two calls with the same counter readings. *)
Lemma unchanged_counters_report_zero_witness :
  let os := sample_os (mk_disk_io 4096 512) (mk_net_io 300 700) 1700000000 [] in
  let os' := sample_os (mk_disk_io 4096 512) (mk_net_io 300 700) 1700000001 [] in
  let self := __init__ (mk_net_io 0 0) (mk_disk_io 0 0) in
  stats_disk_activity
    (snd (get_system_stats format_2f os'
            (fst (fst (get_system_stats format_2f os self (fun _ => None))))
            (snd (fst (get_system_stats format_2f os self (fun _ => None))))))
  = {| read := "0.00 B/s"; write := "0.00 B/s" |}.
Proof.
  cbv zeta.
  match goal with
  | |- context [get_system_stats ?f ?o' (fst (fst (get_system_stats ?f ?o ?s ?fs))) _] =>
      destruct (unchanged_counters_report_zero f o o' s fs eq_refl eq_refl)
        as (_ & _ & H & _)
  end.
  exact H.
Defined.

(** X5. After any run of calls on a new monitor, the cpu and memory
    buffers hold the last 50 readings in order, and each rate buffer holds
    the last 50 differences between successive counter readings (the first
    against the reading taken when the monitor was made), divided by
    1024. *)
Theorem histories_hold_last_readings
        (float_str : Q -> string) (oss : list OS) (net0 : net_io)
        (disk0 : disk_io) (fs : filesystem) :
  map items (histories (fst (ticks float_str oss (__init__ net0 disk0) fs)))
  = map (skipn (length oss - 50))
        [map cpu_percent oss;
         map virtual_memory_percent oss;
         map kilobytes
           (differences (read_bytes disk0)
              (map (fun os => read_bytes (disk_io_counters os)) oss));
         map kilobytes
           (differences (write_bytes disk0)
              (map (fun os => write_bytes (disk_io_counters os)) oss));
         map kilobytes
           (differences (bytes_sent net0)
              (map (fun os => bytes_sent (net_io_counters os)) oss));
         map kilobytes
           (differences (bytes_recv net0)
              (map (fun os => bytes_recv (net_io_counters os)) oss))].
Proof.
  assert (L : forall prev (xs : list Z), length (differences prev xs) = length xs).
  { intros prev xs. revert prev.
    induction xs as [|x xs IH]; intros prev; cbn [differences length];
      [reflexivity|]. rewrite IH. reflexivity. }
  rewrite histories_ticks. cbn [__init__ cpu_history mem_history
    disk_read_history disk_write_history network_send_history
    network_recv_history last_disk_io last_network_stats map].
  rewrite !items_pushes, !length_map, !L, !length_map. reflexivity.
Qed.

Lemma last_cons {A : Type} (x d : A) (xs : list A) :
  last (x :: xs) d = last xs x.
Proof.
  revert x d. induction xs as [|y xs IH]; intros x d; [reflexivity|].
  change (last (x :: y :: xs) d) with (last (y :: xs) d).
  rewrite !IH. reflexivity.
Qed.

Lemma sum_differences (prev : Z) (xs : list Z) :
  fold_right Z.add 0 (differences prev xs) = last xs prev - prev.
Proof.
  revert prev. induction xs as [|x xs IH]; intros prev.
  - cbn. lia.
  - cbn [differences fold_right]. rewrite IH, last_cons. lia.
Qed.

Lemma total_kilobytes (l : list Z) :
  (total (map kilobytes l) * 1024 == inject_Z (fold_right Z.add 0%Z l))%Q.
Proof.
  induction l as [|x l IH]; cbn [map total fold_right].
  - reflexivity.
  - fold (total (map kilobytes l)).
    rewrite inject_Z_plus, <- IH. unfold kilobytes. field.
Qed.

Section Readings_kept.

Variable float_str : Q -> string.

Lemma ticks_last (oss : list OS) (self : Monitor) (fs : filesystem) :
  last_disk_io (fst (ticks float_str oss self fs))
  = last (map disk_io_counters oss) (last_disk_io self)
  /\ last_network_stats (fst (ticks float_str oss self fs))
     = last (map net_io_counters oss) (last_network_stats self).
Proof.
  revert self fs. induction oss as [|os oss IH]; intros self fs.
  - split; reflexivity.
  - rewrite ticks_cons. cbn [map]. rewrite !last_cons.
    destruct (get_system_stats_last float_str os self fs) as [D N].
    rewrite <- D, <- N. apply IH.
Qed.

End Readings_kept.

Lemma last_map {A B : Type} (f : A -> B) (l : list A) (d : A) :
  last (map f l) (f d) = f (last l d).
Proof.
  revert d. induction l as [|x l IH]; intros d; [reflexivity|].
  cbn [map]. rewrite !last_cons. apply IH.
Qed.

(** X6. While a new monitor has made at most 50 calls, and every
    difference between successive counter readings is at most 2 to the 53
    in magnitude (so that the float pushed for it is exact), the values of
    a rate buffer add up to the growth of its counter since the monitor
    was made, in units of 1024 bytes: the differences telescope. *)
Theorem rate_buffer_sums_to_counter_growth
        (float_str : Q -> string) (oss : list OS) (net0 : net_io)
        (disk0 : disk_io) (fs : filesystem) :
  (length oss <= 50)%nat ->
  Forall in_float_range
         (differences (read_bytes disk0)
            (map (fun os => read_bytes (disk_io_counters os)) oss)) ->
  Forall in_float_range
         (differences (write_bytes disk0)
            (map (fun os => write_bytes (disk_io_counters os)) oss)) ->
  Forall in_float_range
         (differences (bytes_sent net0)
            (map (fun os => bytes_sent (net_io_counters os)) oss)) ->
  Forall in_float_range
         (differences (bytes_recv net0)
            (map (fun os => bytes_recv (net_io_counters os)) oss)) ->
  let self := fst (ticks float_str oss (__init__ net0 disk0) fs) in
  (total (items (disk_read_history self)) * 1024
   == inject_Z (read_bytes (last_disk_io self) - read_bytes disk0))%Q
  /\ (total (items (disk_write_history self)) * 1024
      == inject_Z (write_bytes (last_disk_io self) - write_bytes disk0))%Q
  /\ (total (items (network_send_history self)) * 1024
      == inject_Z (bytes_sent (last_network_stats self) - bytes_sent net0))%Q
  /\ (total (items (network_recv_history self)) * 1024
      == inject_Z (bytes_recv (last_network_stats self) - bytes_recv net0))%Q.
Proof.
  intros B _ _ _ _. cbv zeta.
  pose proof (histories_ticks float_str oss (__init__ net0 disk0) fs) as H.
  destruct (ticks_last float_str oss (__init__ net0 disk0) fs) as [D N].
  remember (fst (ticks float_str oss (__init__ net0 disk0) fs)) as self.
  unfold histories in H. injection H as _ _ Hr Hw Hs Hn.
  rewrite Hr, Hw, Hs, Hn, D, N.
  cbn [__init__ disk_read_history disk_write_history network_send_history
       network_recv_history last_disk_io last_network_stats].
  rewrite !items_pushes, !length_map.
  assert (L : forall prev (xs : list Z), length (differences prev xs) = length xs).
  { intros prev xs. revert prev.
    induction xs as [|x xs IH]; intros prev; cbn [differences length];
      [reflexivity|]. rewrite IH. reflexivity. }
  rewrite !L, !length_map.
  replace (length oss - 50)%nat with 0%nat by lia. cbn [skipn].
  rewrite !total_kilobytes, !sum_differences.
  rewrite <- (last_map read_bytes), <- (last_map write_bytes),
    <- (last_map bytes_sent), <- (last_map bytes_recv).
  rewrite !map_map. repeat split; reflexivity.
Qed.

(** X6 on three calls, the read counter going up, down and up. *)
Lemma rate_buffer_sums_to_counter_growth_witness :
  let oss := [sample_os (mk_disk_io 1500 0) (mk_net_io 0 0) 1700000000 [];
              sample_os (mk_disk_io 1200 0) (mk_net_io 0 0) 1700000001 [];
              sample_os (mk_disk_io 9000 0) (mk_net_io 0 0) 1700000002 []] in
  let self :=
    fst (ticks format_2f oss (__init__ (mk_net_io 0 0) (mk_disk_io 1000 0))
               (fun _ => None)) in
  (total (items (disk_read_history self)) * 1024
   == inject_Z (read_bytes (last_disk_io self) - 1000))%Q.
Proof.
  cbv zeta.
  match goal with
  | |- context [ticks ?f ?oss (__init__ ?n ?d) ?fs] =>
      destruct (rate_buffer_sums_to_counter_growth f oss n d fs) as (H & _)
  end.
  - cbn [length]. lia.
  - repeat constructor; vm_compute; discriminate.
  - repeat constructor; vm_compute; discriminate.
  - repeat constructor; vm_compute; discriminate.
  - repeat constructor; vm_compute; discriminate.
  - exact H.
Defined.

(** ** What every monitor satisfies *)

Lemma bounded_append (d : deque Q) (x : Q) :
  maxlen d = 50%nat /\ (len d <= 50)%nat ->
  maxlen (append d x) = 50%nat /\ (len (append d x) <= 50)%nat.
Proof.
  intros [M L]. rewrite maxlen_append, len_append, M. split; [reflexivity|].
  destruct (50 <? len d + 1)%nat eqn:E; [exact L|].
  apply Nat.ltb_ge in E. exact E.
Qed.

Section Sound.

Variable float_str : Q -> string.

Lemma get_system_stats_processes (os : OS) (self : Monitor) (fs : filesystem) :
  let self' := fst (fst (get_system_stats float_str os self fs)) in
  process_update_interval self' = process_update_interval self
  /\ ((processes self' = processes self
       /\ last_process_update self' = last_process_update self
       /\ Qlt_bool (process_update_interval self)
                   (time_at_check os - last_process_update self) = false)
      \/ (processes self' = get_running_processes (process_iter os)
          /\ last_process_update self' = time_at_stamp os
          /\ Qlt_bool (process_update_interval self)
                      (time_at_check os - last_process_update self) = true)).
Proof.
  cbv zeta. unfold get_system_stats, get_disk_activity. cbv zeta.
  cbn [fst snd].
  cbn [process_update_interval last_process_update set_last_network_stats
       set_network_recv_history set_network_send_history
       set_disk_write_history set_disk_read_history set_last_disk_io
       set_mem_history set_cpu_history].
  destruct (Qlt_bool _ _); (split; [reflexivity|]);
    [right|left]; repeat split.
Qed.

Lemma create_dashboard_state (os : OS) (host : Host) (self : Monitor)
      (fs : filesystem) :
  fst (create_dashboard float_str os host self fs)
  = fst (get_system_stats float_str os self fs).
Proof.
  unfold create_dashboard.
  destruct (get_system_stats float_str os self fs) as [[self' fs'] st].
  reflexivity.
Qed.

Lemma sound_get_system_stats (os : OS) (self : Monitor) (fs : filesystem) :
  sound self -> sound (fst (fst (get_system_stats float_str os self fs))).
Proof.
  intros (H & P & F & I). unfold sound.
  destruct (get_system_stats_processes os self fs) as [I' C].
  rewrite get_system_stats_histories, get_system_stats_log_file, I'.
  repeat split; try assumption.
  - unfold histories, samples in *. cbn [combine map fst snd].
    repeat match goal with
           | H : Forall _ (_ :: _) |- _ => inversion H; clear H; subst
           end.
    repeat (constructor; [apply bounded_append; assumption|]).
    constructor.
  - destruct C as [(-> & _)|(-> & _)]; [exact P|].
    apply firstn_le_length.
Qed.

Lemma sound_get_disk_activity (os : OS) (self : Monitor) :
  sound self -> sound (fst (get_disk_activity os self)).
Proof.
  intros (H & P & F & I). unfold sound.
  rewrite get_disk_activity_histories.
  repeat split; try assumption.
  unfold histories in H.
  repeat match goal with
         | H : Forall _ (_ :: _) |- _ => inversion H; clear H; subst
         end.
  repeat (constructor; [first [assumption|apply bounded_append; assumption]|]).
  constructor.
Qed.

Lemma sound_perform (c : call) (state : Monitor * filesystem) :
  sound (fst state) -> sound (fst (perform float_str state c)).
Proof.
  destruct state as [self fs]. cbn [fst]. intros S.
  destruct c as [os|os|now st|os host]; cbn [perform fst].
  - apply sound_get_system_stats, S.
  - apply sound_get_disk_activity, S.
  - exact S.
  - rewrite create_dashboard_state. apply sound_get_system_stats, S.
Qed.

End Sound.

(** X7. Whatever operations are called on a new monitor, in whatever
    order, each of its six buffers keeps the bound 50 and never holds more
    than 50 values, the cached process list never holds more than 10
    processes, and the log file name and the 2 second interval stay as
    [__init__] set them. *)
Theorem every_monitor_is_sound
        (float_str : Q -> string) (cs : list call) (net0 : net_io)
        (disk0 : disk_io) (fs : filesystem) :
  let self := fst (fold_left (perform float_str) cs (__init__ net0 disk0, fs)) in
  Forall (fun h => maxlen h = 50%nat /\ (len h <= 50)%nat) (histories self)
  /\ (length (processes self) <= 10)%nat
  /\ log_file self = "system_performance.log"
  /\ process_update_interval self = 2%Q.
Proof.
  cbv zeta. change (sound (fst (fold_left (perform float_str) cs
                                          (__init__ net0 disk0, fs)))).
  assert (S0 : sound (fst (__init__ net0 disk0, fs))).
  { cbn [fst]. unfold sound, histories, __init__; cbn.
    repeat split; try lia.
    repeat (constructor; [split; [reflexivity|cbn; lia]|]). constructor. }
  revert S0. generalize (__init__ net0 disk0, fs).
  induction cs as [|c cs IH]; intros state S; cbn [fold_left]; [exact S|].
  apply IH, sound_perform, S.
Qed.

(** ** The process list between refreshes *)

(** X8. Over any number of calls whose clock readings all stay within the
    interval of the last refresh, the cached process list and
    [last_process_update] stay as they were. *)
Theorem process_list_kept_between_refreshes
        (float_str : Q -> string) (oss : list OS) (self : Monitor)
        (fs : filesystem) :
  (forall os : OS,
      In os oss ->
      (time_at_check os - last_process_update self
       <= process_update_interval self)%Q) ->
  processes (fst (ticks float_str oss self fs)) = processes self
  /\ last_process_update (fst (ticks float_str oss self fs))
     = last_process_update self.
Proof.
  revert self fs. induction oss as [|os oss IH]; intros self fs H.
  - split; reflexivity.
  - rewrite ticks_cons.
    destruct (get_system_stats_processes float_str os self fs) as [I C].
    cbv zeta in I, C.
    assert (K : Qlt_bool (process_update_interval self)
                         (time_at_check os - last_process_update self) = false)
      by (apply Qlt_bool_false_iff, H; left; reflexivity).
    destruct C as [(P & L & _)|(_ & _ & T)]; [|congruence].
    rewrite <- P, <- L. apply IH.
    intros os' Hos'. rewrite L, I. apply H. right. exact Hos'.
Qed.

(** X8 on a list refreshed at 1700000000.01 and three calls in the two
    seconds after. *)
Lemma process_list_kept_between_refreshes_witness :
  let self :=
    fst (fst (get_system_stats format_2f
                (sample_os (mk_disk_io 0 0) (mk_net_io 0 0) 1700000000
                           [sample_proc 1 5 1])
                (__init__ (mk_net_io 0 0) (mk_disk_io 0 0)) (fun _ => None))) in
  let oss :=
    [sample_os (mk_disk_io 0 0) (mk_net_io 0 0) 1700000000.5 [sample_proc 2 7 1];
     sample_os (mk_disk_io 0 0) (mk_net_io 0 0) 1700000001 [sample_proc 3 8 1];
     sample_os (mk_disk_io 0 0) (mk_net_io 0 0) 1700000002 []] in
  processes (fst (ticks format_2f oss self (fun _ => None))) = processes self.
Proof.
  cbv zeta.
  match goal with
  | |- processes (fst (ticks ?f ?oss ?self ?fs)) = _ =>
      destruct (process_list_kept_between_refreshes f oss self fs) as [P _]
  end.
  - intros os [<-|[<-|[<-|[]]]]; vm_compute; discriminate.
  - exact P.
Defined.

(** ** The log along a run *)

Lemma contents_some (fs : filesystem) (p c : string) :
  fs p = Some c -> contents fs p = c.
Proof. unfold contents. intros ->. reflexivity. Qed.

Lemma line_ends_joined (l : list string) :
  Forall (fun r => line_ends r = 1%nat) l -> line_ends (joined l) = length l.
Proof.
  induction 1 as [|r l R _ IH]; [reflexivity|].
  cbn [joined fold_right length]. fold (joined l).
  rewrite line_ends_append, R, IH. reflexivity.
Qed.

Section Log_along_a_run.

Variable float_str : Q -> string.

Hypothesis float_str_one_line : forall q : Q, line_ends (float_str q) = 0%nat.

(** The record a call writes is one line. *)
Lemma get_system_stats_record (os : OS) (self : Monitor) (fs : filesystem) :
  let r := log_line float_str (strftime (datetime_now os))
                    (snd (get_system_stats float_str os self fs)) in
  line_ends r = 1%nat /\ ends_with (ascii_of_nat 10) r = true.
Proof.
  cbv zeta. rewrite get_system_stats_report. split.
  - rewrite line_ends_log_line.
    cbn [stats_cpu stats_memory stats_disk_activity stats_network
         read write sent received].
    rewrite !float_str_one_line, line_ends_strftime, !line_ends_append,
      !line_ends_convert_bytes.
    reflexivity.
  - unfold log_line. repeat apply ends_with_append. reflexivity.
Qed.

Lemma get_system_stats_appends (os : OS) (self : Monitor) (fs : filesystem) :
  let fs' := snd (fst (get_system_stats float_str os self fs)) in
  fs' (log_file self)
  = Some (contents fs (log_file self)
            ++ log_line float_str (strftime (datetime_now os))
                 (snd (get_system_stats float_str os self fs)))
  /\ forall p : string, p <> log_file self -> fs' p = fs p.
Proof.
  cbv zeta. rewrite get_system_stats_log.
  rewrite <- (get_system_stats_log_file float_str os self fs).
  apply log_performance_appends.
Qed.

Lemma ticks_log (oss : list OS) (self : Monitor) (fs : filesystem) :
  let fs' := snd (ticks float_str oss self fs) in
  (exists records : list string,
      length records = length oss
      /\ Forall (fun r => line_ends r = 1%nat
                          /\ ends_with (ascii_of_nat 10) r = true) records
      /\ contents fs' (log_file self)
         = contents fs (log_file self) ++ joined records)
  /\ (forall p : string, p <> log_file self -> fs' p = fs p)
  /\ (oss <> [] -> fs' (log_file self) <> None).
Proof.
  cbv zeta. revert self fs. induction oss as [|os oss IH]; intros self fs.
  - split; [|split].
    + exists []. repeat split; [constructor|].
      cbn [joined fold_right ticks fold_left snd].
      induction (contents fs (log_file self)) as [|c s IHs];
        cbn [String.append]; [reflexivity|]. rewrite <- IHs. reflexivity.
    + intros p _. reflexivity.
    + intros H. contradiction.
  - rewrite ticks_cons.
    destruct (get_system_stats_appends os self fs) as [A O]. cbv zeta in A, O.
    destruct (get_system_stats_record os self fs) as [R1 R2]. cbv zeta in R1, R2.
    pose proof (get_system_stats_log_file float_str os self fs) as F.
    set (self1 := fst (fst (get_system_stats float_str os self fs))) in *.
    set (fs1 := snd (fst (get_system_stats float_str os self fs))) in *.
    set (r := log_line float_str (strftime (datetime_now os))
                       (snd (get_system_stats float_str os self fs))) in *.
    destruct (IH self1 fs1) as ((records & L & S & C) & O' & N).
    rewrite F in C, O', N.
    split; [|split].
    + exists (r :: records). split; [cbn [length]; rewrite L; reflexivity|].
      split; [constructor; [split|]; assumption|].
      rewrite C, (contents_some _ _ _ A). cbn [joined fold_right].
      apply append_assoc.
    + intros p Hp. rewrite (O' p Hp). apply O, Hp.
    + intros _. destruct oss as [|os' oss'].
      * cbn [ticks fold_left snd]. unfold ticks. cbn [fold_left snd].
        rewrite A. discriminate.
      * apply N. discriminate.
Qed.

End Log_along_a_run.

(** X9. Along any run of calls the log file only grows: after the run it
    holds what it held before followed by one record per call, each record
    a single line ending in a line end, so its number of lines has grown
    by the number of calls; no other file is touched, and after at least
    one call the log file exists.  (The two percentages are taken to print
    without a line end.) *)
Theorem log_grows_by_one_line_per_call
        (float_str : Q -> string) (oss : list OS) (self : Monitor)
        (fs : filesystem) :
  (forall q : Q, line_ends (float_str q) = 0%nat) ->
  let fs' := snd (ticks float_str oss self fs) in
  (exists records : list string,
      length records = length oss
      /\ Forall (fun r => line_ends r = 1%nat
                          /\ ends_with (ascii_of_nat 10) r = true) records
      /\ contents fs' (log_file self)
         = contents fs (log_file self) ++ joined records)
  /\ line_ends (contents fs' (log_file self))
     = (line_ends (contents fs (log_file self)) + length oss)%nat
  /\ (forall p : string, p <> log_file self -> fs' p = fs p)
  /\ (oss <> [] -> fs' (log_file self) <> None).
Proof.
  intros H. cbv zeta.
  destruct (ticks_log float_str H oss self fs) as (E & O & N).
  cbv zeta in E, O, N.
  split; [exact E|]. split; [|split; assumption].
  destruct E as (records & L & S & C).
  rewrite C, line_ends_append, line_ends_joined, L; [reflexivity|].
  eapply Forall_impl; [|exact S]. intros r [R _]. exact R.
Qed.

(** X9 on two calls into a log of one line, the percentages printed with
    two decimals. *)
Lemma log_grows_by_one_line_per_call_witness :
  let oss := [sample_os (mk_disk_io 10 0) (mk_net_io 0 0) 1700000000 [];
              sample_os (mk_disk_io 20 0) (mk_net_io 0 0) 1700000001 []] in
  let self := __init__ (mk_net_io 0 0) (mk_disk_io 0 0) in
  let fs := fun p : string =>
              if String.eqb p "system_performance.log"
              then Some ("started" ++ newline) else None in
  line_ends (contents (snd (ticks format_2f oss self fs)) (log_file self))
  = (line_ends (contents fs (log_file self)) + length oss)%nat.
Proof.
  cbv zeta.
  match goal with
  | |- context [ticks ?f ?oss ?self ?fs] =>
      destruct (log_grows_by_one_line_per_call f oss self fs
                  line_ends_format_2f) as (_ & H & _)
  end.
  exact H.
Defined.

(** ** Rounding after the unit is chosen *)

Lemma format_2f_rounds_to_1024 (q : Q) :
  (1023995 # 1000 <= q)%Q -> (q < 1024)%Q -> format_2f q = "1024.00".
Proof.
  destruct q as [n d]. unfold Qle, Qlt. cbn [Qnum Qden]. intros Lo Hi.
  assert (P : 0 <= n) by lia.
  unfold format_2f. cbn [Qnum].
  replace (n <? 0) with false by (symmetry; apply Z.ltb_ge; exact P).
  assert (R : round_half_even (Qabs (n # d) * 100) = 102400).
  { unfold round_half_even, Qabs, Qmult. cbn [Qnum Qden].
    rewrite Pos.mul_1_r, (Z.abs_eq n P).
    pose proof (Z.div_mod (n * 100) (Z.pos d) ltac:(lia)) as E.
    pose proof (Z.mod_pos_bound (n * 100) (Z.pos d) ltac:(lia)) as B.
    assert (F : (n * 100) / Z.pos d = 102399).
    { apply Z.le_antisymm.
      - apply Z.lt_succ_r, Z.div_lt_upper_bound; lia.
      - apply Z.div_le_lower_bound; lia. }
    rewrite F in *.
    destruct (Z.compare_spec (2 * ((n * 100) mod Z.pos d)) (Z.pos d));
      [reflexivity|lia|reflexivity]. }
  rewrite R. reflexivity.
Qed.

(** X10. The unit is chosen before the number is rounded: a number that
    is below 1024 of a unit by less than 0.005 is printed as [1024.00] of
    that unit, not as [1.00] of the next. *)
Theorem convert_bytes_can_print_1024 (k : nat) (num : Q) :
  (k <= 4)%nat ->
  ((1023995 # 1000) * threshold k <= num)%Q ->
  (num < threshold (S k))%Q ->
  _convert_bytes num = "1024.00 " ++ nth k units "".
Proof.
  intros K Lo Hi.
  pose proof (threshold_pos k) as T.
  assert (Lo' : (threshold k <= num)%Q) by lra.
  unfold _convert_bytes.
  rewrite (convert_loop_stops units k num).
  - rewrite format_2f_rounds_to_1024; [reflexivity| |apply scaled_below, Hi].
    rewrite scaled_div. apply Qle_shift_div_l; assumption.
  - unfold units. cbn [length]. lia.
  - apply scaled_above, Lo'.
  - apply scaled_below, Hi.
Qed.

(** X10 at 1023.999 bytes and at 1023.999 KB. *)
Lemma convert_bytes_can_print_1024_witness :
  _convert_bytes (1023999 # 1000) = "1024.00 B"
  /\ _convert_bytes (1048574976 # 1000) = "1024.00 KB".
Proof.
  split.
  - apply (convert_bytes_can_print_1024 0); [lia| |]; vm_compute;
      [discriminate|reflexivity].
  - apply (convert_bytes_can_print_1024 1); [lia| |]; vm_compute;
      [discriminate|reflexivity].
Defined.

(** ** Graphs *)

Lemma length_times (c n : Z) : length (times c n) = Z.to_nat n.
Proof. apply repeat_length. Qed.

Lemma count_occ_times (c x n : Z) :
  count_occ Z.eq_dec (times c n) x = if Z.eq_dec c x then Z.to_nat n else 0%nat.
Proof.
  unfold times. induction (Z.to_nat n) as [|m IH]; cbn [repeat count_occ].
  - destruct (Z.eq_dec c x); reflexivity.
  - rewrite IH. destruct (Z.eq_dec c x); reflexivity.
Qed.

(** Settles the comparisons of the three characters of a graph. *)
Ltac compare_characters :=
  repeat match goal with
         | |- context [Z.eq_dec ?a ?b] =>
             let E := fresh "E" in
             destruct (Z.eq_dec a b) as [E|E];
             [try (vm_compute in E; discriminate E)
             |try (exfalso; apply E; reflexivity)]
         end.

(** [int] of a float is between 0 and 101 exactly for the floats above -1
    and below 102. *)
Lemma int_of_float_range (v : Q) :
  0 <= int_of_float v <= 101 <-> (- (1) < v /\ v < 102)%Q.
Proof.
  destruct v as [n d]. unfold int_of_float, Qlt.
  cbn [Qnum Qden Qopp Z.opp Pos.to_nat].
  destruct (Z.le_gt_cases 0 n) as [P|N].
  - rewrite (Z.quot_div_nonneg n (Z.pos d)) by lia. split.
    + intros [_ H]. split; [lia|].
      apply Z.lt_succ_r in H.
      assert (G : n / Z.pos d < 102) by lia.
      apply Z.nle_gt. intros C.
      assert (C' : 102 <= n / Z.pos d)
        by (apply Z.div_le_lower_bound; lia).
      lia.
    + intros [_ H]. split; [apply Z.div_pos; lia|].
      apply Z.lt_succ_r, Z.div_lt_upper_bound; lia.
  - replace n with (- (- n)) by lia.
    rewrite Z.quot_opp_l by lia.
    rewrite (Z.quot_div_nonneg (- n) (Z.pos d)) by lia.
    assert (Q0 : 0 <= - n / Z.pos d) by (apply Z.div_pos; lia).
    split.
    + intros [H _]. split; [|lia].
      assert (Z0 : - n / Z.pos d = 0) by lia.
      apply Z.div_small_iff in Z0; lia.
    + intros [H _].
      rewrite Z.div_small by lia. lia.
Qed.

Lemma length_graph_row (v : Q) :
  length (graph_row v)
  = (Z.to_nat (int_of_float v / 2)
     + Z.to_nat (50 - int_of_float v / 2) + 1)%nat.
Proof.
  unfold graph_row.
  rewrite !length_app, !length_times. cbn [length]. lia.
Qed.

Lemma graph_row_fits (v : Q) :
  length (graph_row v) = 51%nat <-> (- (1) < v /\ v < 102)%Q.
Proof.
  rewrite length_graph_row, <- int_of_float_range.
  split; intros H.
  - assert (0 <= int_of_float v / 2 <= 50) as [A B] by lia.
    split.
    + apply Z.nlt_ge. intros C.
      assert (int_of_float v / 2 < 0)
        by (apply Z.div_lt_upper_bound; lia). lia.
    + apply Z.nlt_ge. intros C.
      assert (51 <= int_of_float v / 2)
        by (apply Z.div_le_lower_bound; lia). lia.
  - assert (0 <= int_of_float v / 2) by (apply Z.div_pos; lia).
    assert (int_of_float v / 2 < 51)
      by (apply Z.div_lt_upper_bound; lia).
    lia.
Qed.

(** X11. A row of a graph is a bar of [int(v) // 2] blocks, padded with
    blanks to [50 - int(v) // 2], and a line end; a negative count gives
    nothing.  The row is 50 cells wide exactly when the value is above -1
    and below 102: from 102 on the bar alone is wider, and at -1 or below
    the padding alone is wider.  For a percentage from 0 to 100 the bar is
    at most 50 blocks. *)
Theorem graph_row_width (v : Q) :
  let k := int_of_float v / 2 in
  count_occ Z.eq_dec (graph_row v) full_block = Z.to_nat k
  /\ count_occ Z.eq_dec (graph_row v) blank = Z.to_nat (50 - k)
  /\ count_occ Z.eq_dec (graph_row v) line_feed = 1%nat
  /\ length (graph_row v) = (Z.to_nat k + Z.to_nat (50 - k) + 1)%nat
  /\ (length (graph_row v) = 51%nat <-> (- (1) < v /\ v < 102)%Q)
  /\ ((0 <= v /\ v <= 100)%Q -> 0 <= k <= 50).
Proof.
  cbv zeta.
  split; [|split; [|split; [|split; [apply length_graph_row
                                    |split; [apply graph_row_fits|]]]]].
  1-3: unfold graph_row; change [line_feed] with (times line_feed 1);
    rewrite !count_occ_app, !count_occ_times; compare_characters; lia.
  intros [Lo Hi].
  assert (R : 0 <= int_of_float v <= 101)
    by (apply int_of_float_range; split; lra).
  assert (I : int_of_float v <= 100).
  { destruct v as [n d]. unfold int_of_float, Qle in *.
    cbn [Qnum Qden] in *.
    rewrite (Z.quot_div_nonneg n (Z.pos d)) by lia.
    apply Z.lt_succ_r, Z.div_lt_upper_bound; lia. }
  split; [apply Z.div_pos; lia|].
  apply Z.lt_succ_r, Z.div_lt_upper_bound; lia.
Qed.

(** X11 at 37.5 percent. *)
Lemma graph_row_width_witness :
  0 <= int_of_float 37.5 / 2 <= 50.
Proof.
  destruct (graph_row_width 37.5) as (_ & _ & _ & _ & _ & H).
  apply H. split; vm_compute; discriminate.
Defined.

Lemma count_occ_concat_rows (l : list Q) :
  count_occ Z.eq_dec (concat (map graph_row l)) line_feed = length l.
Proof.
  induction l as [|v l IH]; [reflexivity|].
  cbn [map concat length]. rewrite count_occ_app, IH.
  unfold graph_row. change [line_feed] with (times line_feed 1).
  rewrite !count_occ_app, !count_occ_times.
  compare_characters. lia.
Qed.

Lemma length_concat_rows (l : list Q) :
  Forall (fun v => (- (1) < v /\ v < 102)%Q) l ->
  length (concat (map graph_row l)) = (51 * length l)%nat.
Proof.
  induction 1 as [|v l V _ IH]; [reflexivity|].
  cbn [map concat length]. rewrite length_app, IH.
  apply graph_row_fits in V. lia.
Qed.

(** X12. A graph has one row per value of the buffer, oldest first.  When
    every value is above -1 and below 102 it is a block of rows 50 cells
    wide.  A value pushed to a buffer that is not full adds its row at the
    bottom; pushed to a full buffer it also removes the top row. *)
Theorem graph_has_one_row_per_value (h : deque Q) (t c : string) (x : Q) :
  count_occ Z.eq_dec (renderable (create_graph h t c)) line_feed = len h
  /\ (Forall (fun v => (- (1) < v /\ v < 102)%Q) (items h) ->
      length (renderable (create_graph h t c)) = (51 * len h)%nat)
  /\ ((len h < maxlen h)%nat ->
      renderable (create_graph (append h x) t c)
      = (renderable (create_graph h t c) ++ graph_row x)%list)
  /\ ((0 < len h)%nat -> len h = maxlen h ->
      renderable (create_graph (append h x) t c)
      = (concat (map graph_row (tl (items h))) ++ graph_row x)%list).
Proof.
  unfold create_graph, len. cbn [renderable].
  split; [apply count_occ_concat_rows|].
  split; [apply length_concat_rows|].
  unfold append. cbn [items maxlen]. rewrite length_app. cbn [length].
  split.
  - intros L.
    replace (maxlen h <? length (items h) + 1)%nat with false
      by (symmetry; apply Nat.ltb_ge; lia).
    rewrite map_app, concat_app. cbn [map concat]. rewrite app_nil_r.
    reflexivity.
  - intros P L.
    replace (maxlen h <? length (items h) + 1)%nat with true
      by (symmetry; apply Nat.ltb_lt; lia).
    destruct (items h) as [|y l]; [cbn [length] in P; lia|].
    cbn [app tl]. rewrite map_app, concat_app. cbn [map concat].
    rewrite app_nil_r. reflexivity.
Qed.

(** X12 on a buffer of two percentages. *)
Lemma graph_has_one_row_per_value_witness :
  length (renderable (create_graph (mk_deque 50 [12.5; 99]%Q) "CPU Usage" "green"))
  = (51 * 2)%nat
  /\ renderable (create_graph (append (mk_deque 50 [12.5; 99]%Q) 40%Q)
                              "CPU Usage" "green")
     = (renderable (create_graph (mk_deque 50 [12.5; 99]%Q) "CPU Usage" "green")
          ++ graph_row 40%Q)%list.
Proof.
  destruct (graph_has_one_row_per_value (mk_deque 50 [12.5; 99]%Q)
              "CPU Usage" "green" 40%Q) as (_ & W & A & _).
  split.
  - apply W. repeat constructor; vm_compute; reflexivity.
  - apply A. cbn. lia.
Defined.

(** ** The process table *)

Lemma length_substring_0 (n : nat) (s : string) :
  String.length (substring 0 n s) = Nat.min n (String.length s).
Proof.
  revert s. induction n as [|n IH]; intros [|c s]; cbn; try reflexivity.
  rewrite IH. reflexivity.
Qed.

Lemma prefix_substring_0 (n : nat) (s : string) :
  prefix (substring 0 n s) s = true.
Proof.
  revert s. induction n as [|n IH]; intros [|c s]; cbn; try reflexivity.
  rewrite IH. destruct (ascii_dec c c) as [_|N]; [reflexivity|].
  exfalso. apply N. reflexivity.
Qed.

Lemma substring_0_short (n : nat) (s : string) :
  (String.length s <= n)%nat -> substring 0 n s = s.
Proof.
  revert s. induction n as [|n IH]; intros [|c s] H; cbn in *;
    try reflexivity; try lia.
  rewrite IH by lia. reflexivity.
Qed.

Lemma add_rows (f : process -> list string) (l : list process) (t : Table) :
  let t' := fold_left (fun table proc => add_row (f proc) table) l t in
  rows t' = (rows t ++ map f l)%list
  /\ columns t' = columns t
  /\ show_header t' = show_header t
  /\ header_style t' = header_style t.
Proof.
  cbv zeta. revert t. induction l as [|p l IH]; intros t; cbn [fold_left map].
  - rewrite app_nil_r. repeat split.
  - destruct (IH (add_row (f p) t)) as (R & C & S & H).
    rewrite R, C, S, H. cbn [add_row rows columns show_header header_style].
    rewrite <- app_assoc. repeat split.
Qed.

(** X13. The process table has the five columns PID, Name, CPU%, Mem% and
    Command and one row of five cells per cached process, in the order of
    the cache.  The name cell is the first 20 characters of the name and
    the command cell the first 45 of the command: both are prefixes, are
    never longer than that, fit the widths 20 and 50 of their columns, and
    are the whole text when it is short enough. *)
Theorem process_table_rows (self : Monitor) :
  let t := create_process_table self in
  map fst (columns t) = ["PID"; "Name"; "CPU%"; "Mem%"; "Command"]
  /\ map snd (columns t) = [8; 20; 8; 8; 50]
  /\ length (rows t) = length (processes self)
  /\ Forall2
       (fun proc row =>
          exists name_cell cmd_cell : string,
            row = [str_int (pid proc); name_cell; format_1f (cpu proc);
                   format_1f (memory proc); cmd_cell]
            /\ prefix name_cell (name proc) = true
            /\ (String.length name_cell <= 20)%nat
            /\ ((String.length (name proc) <= 20)%nat -> name_cell = name proc)
            /\ prefix cmd_cell (cmd proc) = true
            /\ (String.length cmd_cell <= 45)%nat
            /\ ((String.length (cmd proc) <= 45)%nat -> cmd_cell = cmd proc))
       (processes self) (rows t).
Proof.
  cbv zeta. unfold create_process_table. cbv zeta.
  match goal with
  | |- context [fold_left (fun table proc => add_row (@?f proc) table) ?l ?t] =>
      destruct (add_rows f l t) as (R & C & _)
  end.
  cbv zeta in R, C. rewrite R, C.
  cbn [add_column columns rows app map fst snd].
  split; [reflexivity|]. split; [reflexivity|].
  split; [apply length_map|].
  clear R C.
  induction (processes self) as [|p l IH]; cbn [map]; [constructor|].
  constructor; [|exact IH].
  exists (substring 0 20 (name p)), (substring 0 45 (cmd p)).
  split; [reflexivity|].
  split; [apply prefix_substring_0|].
  split; [rewrite length_substring_0; lia|].
  split; [apply substring_0_short|].
  split; [apply prefix_substring_0|].
  split; [rewrite length_substring_0; lia|].
  apply substring_0_short.
Qed.

(** X13 on a monitor that has cached two processes. *)
Lemma process_table_rows_witness :
  let self :=
    fst (fst (get_system_stats format_2f
                (sample_os (mk_disk_io 0 0) (mk_net_io 0 0) 1700000000
                           [sample_proc 1 5 1; sample_proc 2 7 1])
                (__init__ (mk_net_io 0 0) (mk_disk_io 0 0)) (fun _ => None))) in
  length (rows (create_process_table self)) = 2%nat.
Proof.
  cbv zeta.
  match goal with
  | |- context [create_process_table ?self] =>
      destruct (process_table_rows self) as (_ & _ & L & _)
  end.
  rewrite L. reflexivity.
Defined.

(** ** The dashboard *)

(** X14. A dashboard is one call of [get_system_stats]: it changes the
    monitor and the file system as that call does.  What it shows does not
    depend on the buffer of received bytes: that buffer is filled at every
    call and drawn nowhere, the network graph showing the bytes sent. *)
Theorem dashboard_never_shows_received_history
        (float_str : Q -> string) (os : OS) (host : Host) (self : Monitor)
        (fs : filesystem) (h : deque Q) :
  fst (create_dashboard float_str os host self fs)
  = fst (get_system_stats float_str os self fs)
  /\ snd (create_dashboard float_str os host (set_network_recv_history h self) fs)
     = snd (create_dashboard float_str os host self fs)
  /\ network_recv_history
       (fst (fst (create_dashboard float_str os host self fs)))
     = append (network_recv_history self)
              (kilobytes (net_recv_delta os self)).
Proof.
  split; [apply create_dashboard_state|]. split.
  - unfold create_dashboard, get_system_stats, get_disk_activity.
    cbv zeta. cbn [fst snd].
    cbn [process_update_interval last_process_update set_last_network_stats
         set_network_recv_history set_network_send_history
         set_disk_write_history set_disk_read_history set_last_disk_io
         set_mem_history set_cpu_history last_network_stats last_disk_io
         cpu_history mem_history disk_read_history disk_write_history
         network_send_history log_file processes].
    destruct (Qlt_bool _ _); reflexivity.
  - rewrite create_dashboard_state.
    pose proof (get_system_stats_histories float_str os self fs) as H.
    unfold histories, samples in H. cbn [combine map fst snd] in H.
    remember (fst (fst (get_system_stats float_str os self fs))) as self1.
    injection H as _ _ _ _ _ H. exact H.
Qed.

(** ** A run of the display *)

Section Run.

Variable float_str : Q -> string.

Lemma run_loop (turns : list (OS * Host)) (self : Monitor) (fs : filesystem)
      (shown : list Layout) :
  let r :=
    fold_left
      (fun acc turn =>
         let '(self, fs, shown) := acc in
         let '(self, fs, layout) :=
           create_dashboard float_str (fst turn) (snd turn) self fs in
         (self, fs, (shown ++ [layout])%list))
      turns (self, fs, shown) in
  fst r = ticks float_str (map fst turns) self fs
  /\ length (snd r) = (length shown + length turns)%nat.
Proof.
  cbv zeta. revert self fs shown.
  induction turns as [|[os host] turns IH]; intros self fs shown.
  - cbn [fold_left map length fst snd]. split; [reflexivity|lia].
  - cbn [fold_left map length fst snd]. rewrite ticks_cons.
    pose proof (create_dashboard_state float_str os host self fs) as E.
    destruct (create_dashboard float_str os host self fs) as [[self1 fs1] layout].
    cbn [fst] in E. rewrite <- E. cbn [fst snd].
    destruct (IH self1 fs1 (shown ++ [layout])%list) as [T L].
    split; [exact T|]. rewrite L, length_app. cbn [length]. lia.
Qed.

End Run.

(** X15. A run that is interrupted after some turns of its loop has drawn
    one dashboard for [Live] and one per turn, and has changed the monitor
    and the file system as that many calls of [get_system_stats] do.  On a
    new monitor every buffer then holds one value per dashboard drawn, up
    to 50. *)
Theorem run_samples_once_per_dashboard
        (float_str : Q -> string) (first : OS * Host)
        (turns : list (OS * Host)) (self : Monitor) (fs : filesystem)
        (net0 : net_io) (disk0 : disk_io) :
  let r := run float_str first turns self fs in
  fst (fst r) = ticks float_str (map fst (first :: turns)) self fs
  /\ length (snd (fst r)) = S (length turns)
  /\ Forall (fun h => len h = Nat.min (S (length turns)) 50)
            (histories
               (fst (fst (fst (run float_str first turns
                                   (__init__ net0 disk0) fs))))).
Proof.
  cbv zeta.
  assert (G : forall self0 : Monitor,
             fst (fst (run float_str first turns self0 fs))
             = ticks float_str (map fst (first :: turns)) self0 fs
             /\ length (snd (fst (run float_str first turns self0 fs)))
                = S (length turns)).
  { intros self0. unfold run.
    destruct (run_loop float_str (first :: turns) self0 fs []) as [T L].
    cbv zeta in T, L.
    destruct (fold_left _ (first :: turns) (self0, fs, [])) as [[s f] shown].
    cbn [fst snd] in *. split; [exact T|exact L]. }
  destruct (G self) as [T L]. split; [exact T|]. split; [exact L|].
  destruct (G (__init__ net0 disk0)) as [T0 _].
  rewrite T0.
  assert (I : Forall (fun h : deque Q => maxlen h = 50%nat /\ len h = Nat.min 0 50)
                     (histories (__init__ net0 disk0))).
  { unfold histories, __init__; cbn. repeat (constructor; [split; reflexivity|]).
    constructor. }
  apply (filled_ticks float_str (map fst (first :: turns)) 0 _ fs) in I.
  rewrite length_map in I. cbn [length Nat.add] in I.
  eapply Forall_impl; [|exact I].
  intros h [_ H]. exact H.
Qed.
